(** * Two-Step Order Cleaner: shallow embedding of [two_step_order_cleaner.py]

    The order workbook is modelled at the level of the pandas frame that
    [transform_order] works on: a sheet is the list of its rows, each row
    the list of its cells as the xlsx reader yields them.  Strings are byte
    strings (UTF-8); the Georgian literals of the source are written as such. *)

From Stdlib Require Import String Ascii List Bool Arith NArith Lia.
Import ListNotations.
Open Scope string_scope.
Open Scope bool_scope.
Open Scope nat_scope.

(** ** Cells and text coercion *)

(** A cell of a frame parsed with [dtype=object]: a missing value (NaN),
    a text value, or a number carried with the text [str()] gives for it. *)
Inductive cell : Type :=
| NaN : cell
| Str (s : string) : cell
| Num (repr : string) : cell.

(** [str(v)], and [Series.astype(str)] as pandas 2.x does it: a missing
    value becomes the text ["nan"].  (pandas 3 keeps it missing instead;
    the model follows pandas 2.x throughout.) *)
Definition to_str (c : cell) : string :=
  match c with
  | NaN => "nan"
  | Str s => s
  | Num r => r
  end.

(** [Series.notna]. *)
Definition notna (c : cell) : bool :=
  match c with NaN => false | _ => true end.

(** The code points [str.isspace] accepts, as their UTF-8 byte sequences:
    tab to carriage return, the separators 28..31, space, U+0085, U+00A0,
    U+1680, U+2000..U+200A, U+2028, U+2029, U+202F, U+205F and U+3000. *)
Definition ws_seqs : list (list nat) :=
  [[9]; [10]; [11]; [12]; [13]; [28]; [29]; [30]; [31]; [32];
   [194; 133]; [194; 160]; [225; 154; 128]]
  ++ map (fun k => [226; 128; 128 + k]) (seq 0 11)
  ++ [[226; 128; 168]; [226; 128; 169]; [226; 128; 175];
      [226; 129; 159]; [227; 128; 128]].

Fixpoint bytes_prefix (p : list nat) (l : list ascii) : bool :=
  match p, l with
  | [], _ => true
  | n :: p', a :: l' => Nat.eqb n (nat_of_ascii a) && bytes_prefix p' l'
  | _ :: _, [] => false
  end.

(** Drop the leading code points that are whitespace, given the byte
    sequences to recognise (read left to right). *)
Fixpoint drop_ws (seqs : list (list nat)) (fuel : nat) (l : list ascii) : list ascii :=
  match fuel with
  | 0 => l
  | S f =>
      match find (fun p => bytes_prefix p l) seqs with
      | Some p => drop_ws seqs f (skipn (length p) l)
      | None => l
      end
  end.

(** [str.strip()]: leading whitespace is matched on the bytes, trailing
    whitespace on the reversed bytes with the reversed sequences. *)
Definition strip_list (l : list ascii) : list ascii :=
  let l1 := drop_ws ws_seqs (length l) l in
  rev (drop_ws (map (@rev nat) ws_seqs) (length l1) (rev l1)).

Definition strip (s : string) : string :=
  string_of_list_ascii (strip_list (list_ascii_of_string s)).

(** [s.startswith(p)]. *)
Definition startswith (s p : string) : bool := String.prefix p s.

(** Membership in a Python [set] of strings. *)
Definition mem_str (x : string) (xs : list string) : bool :=
  existsb (String.eqb x) xs.

Definition mem_nat (x : nat) (xs : list nat) : bool :=
  existsb (Nat.eqb x) xs.

(** [s.add(x)]. *)
Definition set_add_nat (x : nat) (s : list nat) : list nat :=
  if mem_nat x s then s else s ++ [x].

Definition set_add_str (x : string) (s : list string) : list string :=
  if mem_str x s then s else s ++ [x].

(** [set(l)]. *)
Definition to_set (l : list string) : list string :=
  fold_left (fun acc x => set_add_str x acc) l [].

(** [enumerate(l)]. *)
Definition enumerate {A} (l : list A) : list (nat * A) :=
  combine (seq 0 (length l)) l.

(** ** Errors *)

Inductive error : Type :=
| IndexError        (* [raw.iloc[k]] on a frame with too few rows *)
| StructureError    (* the [RuntimeError] for a missing supplier column *)
| ConfigError.      (* the [ValueError] for a template without [shop_code] *)

Inductive result (A : Type) : Type :=
| Ok (a : A) : result A
| Err (e : error) : result A.
Arguments Ok {A} a.
Arguments Err {A} e.

(** ** Regular expressions of the source

    Both patterns are written as raw strings with a doubled backslash,
    [r"#(\\d+)#"] and [r"\\.0$"]: in the regex syntax [\\] is a literal
    backslash, so the first pattern is [#], a backslash, one or more
    letters [d], [#]; the second is a backslash, any character but a
    newline, [0], end of string (or before a final newline). *)

Definition ch_hash : ascii := "#"%char.
Definition ch_bs : ascii := ascii_of_nat 92.
Definition ch_d : ascii := "d"%char.
Definition ch_0 : ascii := "0"%char.
Definition ch_nl : ascii := ascii_of_nat 10.

(** Leading run of [d] letters: its length and the rest. *)
Fixpoint span_d (l : list ascii) : nat * list ascii :=
  match l with
  | a :: l' =>
      if Ascii.eqb a ch_d then let (k, r) := span_d l' in (S k, r)
      else (0, l)
  | [] => (0, [])
  end.

(** A match of [#(\\d+)#] starting at the head of [l], with its group 1.
    The greedy [d+] takes the whole run of [d]; backtracking to a shorter
    run leaves a [d], not [#], so the run must be followed by [#]. *)
Definition code_match_at (l : list ascii) : option (list ascii) :=
  match l with
  | h :: b :: rest =>
      if Ascii.eqb h ch_hash && Ascii.eqb b ch_bs then
        let (k, after) := span_d rest in
        match k, after with
        | S _, h' :: _ => if Ascii.eqb h' ch_hash then Some (b :: repeat ch_d k) else None
        | _, _ => None
        end
      else None
  | _ => None
  end.

Fixpoint code_search_list (l : list ascii) : option (list ascii) :=
  match l with
  | [] => None
  | _ :: l' =>
      match code_match_at l with
      | Some g => Some g
      | None => code_search_list l'
      end
  end.

(** [m = re.search(r"#(\\d+)#", s)] followed by [m.group(1)]. *)
Definition code_search (s : string) : option string :=
  option_map string_of_list_ascii (code_search_list (list_ascii_of_string s)).

(** The last code point of a UTF-8 byte list, read on the reversed list:
    its continuation bytes (128..191), then its lead byte; with the rest. *)
Definition is_cont (a : ascii) : bool :=
  (128 <=? nat_of_ascii a)%nat && (nat_of_ascii a <=? 191)%nat.

Fixpoint last_char_rev (fuel : nat) (r : list ascii) : option (list ascii * list ascii) :=
  match fuel, r with
  | S f, a :: r' =>
      if is_cont a then
        match last_char_rev f r' with
        | Some (cs, rest) => Some (a :: cs, rest)
        | None => None
        end
      else Some ([a], r')
  | _, _ => None
  end.

(** A match of [\\.0] ending where the reversed list [r] starts: [0], one
    code point other than newline, a backslash; returns what precedes it. *)
Definition dot0_before (r : list ascii) : option (list ascii) :=
  match r with
  | z :: r1 =>
      if Ascii.eqb z ch_0 then
        match last_char_rev 4 r1 with
        | Some (cs, b :: p) =>
            if negb (match cs with [c] => Ascii.eqb c ch_nl | _ => false end) && Ascii.eqb b ch_bs
            then Some (rev p) else None
        | _ => None
        end
      else None
  | [] => None
  end.

(** [re.sub(r"\\.0$", "", s)]: [$] matches at the end of the string or
    just before a final newline, so there is at most one match. *)
Definition sub_dot0_list (l : list ascii) : list ascii :=
  match dot0_before (rev l) with
  | Some p => p
  | None =>
      match rev l with
      | n :: r =>
          if Ascii.eqb n ch_nl then
            match dot0_before r with
            | Some p => p ++ [ch_nl]
            | None => l
            end
          else l
      | [] => l
      end
  end.

Definition sub_dot0 (s : string) : string :=
  string_of_list_ascii (sub_dot0_list (list_ascii_of_string s)).

(** A Python [str] is a sequence of code points (below [0x110000]); it is
    stored here as its UTF-8 encoding. *)
Definition utf8_encode (cp : N) : list ascii :=
  if (cp <? 128)%N then [ascii_of_N cp]
  else if (cp <? 2048)%N then
    [ascii_of_N (192 + cp / 64); ascii_of_N (128 + cp mod 64)]%N
  else if (cp <? 65536)%N then
    [ascii_of_N (224 + cp / 4096); ascii_of_N (128 + (cp / 64) mod 64);
     ascii_of_N (128 + cp mod 64)]%N
  else
    [ascii_of_N (240 + cp / 262144); ascii_of_N (128 + (cp / 4096) mod 64);
     ascii_of_N (128 + (cp / 64) mod 64); ascii_of_N (128 + cp mod 64)]%N.

Definition utf8_string (cps : list N) : string :=
  string_of_list_ascii (flat_map utf8_encode cps).

(** ** The order frame *)

Definition sheet : Type := list (list cell).

(** Number of columns of the parsed frame: the widest row. *)
Definition width (g : sheet) : nat :=
  fold_right (fun row m => Nat.max (length row) m) 0 g.

Definition cell_at (row : list cell) (c : nat) : cell := nth c row NaN.

(** The cell at row [r], column [c] ([iloc[r, c]]). *)
Definition at_rc (g : sheet) (r c : nat) : cell := cell_at (nth r g []) c.

(** [xls.parse(sheet_name, header=None, dtype=object)]: the frame is as
    wide as the widest row, shorter rows are padded with NaN. *)
Definition parse (g : sheet) : sheet :=
  map (fun row => map (cell_at row) (seq 0 (width g))) g.

Definition supplier_label : string := "ძირითადი მომწოდებელი".
Definition default_protected_supplier : string := "გაგრა პლუსი".
Definition default_west_prefix : string := "დასავლეთი".

(** [raw.iloc[k].astype(str).fillna("")]: under pandas 2.x [astype(str)]
    already turned a missing value into ["nan"], so [fillna] finds nothing
    to fill. *)
Definition row_str (row : list cell) : list string := map to_str row.

Fixpoint find_col_from (i : nat) (hdr_series : list string) (name_exact : string)
  : option nat :=
  match hdr_series with
  | [] => None
  | v :: hdr' =>
      if String.eqb (strip v) name_exact then Some i
      else find_col_from (S i) hdr' name_exact
  end.

(** [find_col]. *)
Definition find_col (hdr_series : list string) (name_exact : string) : option nat :=
  find_col_from 0 hdr_series name_exact.

(** [shop_cols_map]: column index to the group of the first match. *)
Definition shop_cols_map (hdr_address : list string) : list (nat * string) :=
  fold_left
    (fun acc '(i, meta) =>
       match code_search meta with
       | Some code => (acc ++ [(i, code)])%list
       | None => acc
       end)
    (enumerate hdr_address) [].

(** "Match by shop_code". *)
Definition match_by_code (shop_codes_to_clear : list string)
  (m : list (nat * string)) (acc : list nat) : list nat :=
  fold_left
    (fun acc '(col_idx, code) =>
       if mem_str code shop_codes_to_clear then set_add_nat col_idx acc else acc)
    m acc.

(** "Match by nickname". *)
Definition match_by_nickname (nicknames_to_clear : list string)
  (hdr_nickname : list string) (acc : list nat) : list nat :=
  fold_left
    (fun acc '(col_idx, nickname) =>
       if mem_str (strip nickname) nicknames_to_clear then set_add_nat col_idx acc
       else acc)
    (enumerate hdr_nickname) acc.

Definition columns_to_clear (shop_codes_to_clear nicknames_to_clear : list string)
  (hdr_nickname hdr_address : list string) : list nat :=
  match_by_nickname nicknames_to_clear hdr_nickname
    (match_by_code shop_codes_to_clear (shop_cols_map hdr_address) []).

(** [west_cols]. *)
Definition west_cols (west_prefix : string) (hdr_nickname : list string) : list nat :=
  map fst (filter (fun '(i, v) => startswith (strip v) west_prefix)
                  (enumerate hdr_nickname)).

Definition data_start : nat := 3.

(** [out.iloc[data_start:, col_supplier].astype(str).fillna("")], with
    the row labels (a [RangeIndex], so labels are positions). *)
Definition suppliers (out : sheet) (col_supplier : nat) : list (nat * string) :=
  skipn data_start
    (enumerate (map (fun row => to_str (cell_at row col_supplier)) out)).

(** [suppliers.index[suppliers.str.strip() != protected_supplier]]. *)
Definition rows_to_edit (protected_supplier : string) (sup : list (nat * string))
  : list nat :=
  map fst (filter (fun '(_, s) => negb (String.eqb (strip s) protected_supplier)) sup).

Fixpoint set_nth {A} (l : list A) (n : nat) (x : A) : list A :=
  match l, n with
  | [], _ => []
  | _ :: l', 0 => x :: l'
  | y :: l', S n' => y :: set_nth l' n' x
  end.

(** [out.loc[rows, c] = ""]. *)
Definition set_col_rows (rows : list nat) (c : nat) (out : sheet) : sheet :=
  map (fun '(r, row) => if mem_nat r rows then set_nth row c (Str "") else row)
      (enumerate out).

(** [int(out.loc[rows, c].notna().sum())]. *)
Definition count_notna (rows : list nat) (c : nat) (out : sheet) : nat :=
  length (filter (fun '(r, row) => mem_nat r rows && notna (cell_at row c))
                 (enumerate out)).

(** The clearing loop over [columns_to_clear], with [cleared_cells]. *)
Definition clear_loop (rows : list nat) (cols : list nat) (out : sheet) : sheet * nat :=
  fold_left
    (fun '(out, n) c => (set_col_rows rows c out, n + count_notna rows c out))
    cols (out, 0).

(** [out.drop(columns=cols)]. *)
Definition drop_cols (cols : list nat) (out : sheet) : sheet :=
  map (fun row => map snd (filter (fun '(i, _) => negb (mem_nat i cols)) (enumerate row)))
      out.

Record summary : Type := mkSummary {
  columns_to_clear_count : nat;
  west_columns_dropped : nat;
  rows_eligible_by_supplier_rule : nat;
  cleared_cells_estimate : nat;
  summary_protected_supplier : string
}.

(** [transform_order], up to the frame handed to [to_excel]: the result is
    that frame (written with [index=False, header=False]) and the summary. *)
Definition transform_order (order : sheet)
  (shop_codes_to_clear nicknames_to_clear : list string)
  (protected_supplier west_prefix : string) : result (sheet * summary) :=
  let raw := parse order in
  match raw with
  | row0 :: row1 :: _ =>
      let hdr_nickname := row_str row0 in
      let hdr_address := row_str row1 in
      match find_col hdr_nickname supplier_label with
      | None => Err StructureError
      | Some col_supplier =>
          let cols := columns_to_clear shop_codes_to_clear nicknames_to_clear
                        hdr_nickname hdr_address in
          let west := west_cols west_prefix hdr_nickname in
          let out := raw in
          let sup := suppliers out col_supplier in
          let rows := rows_to_edit protected_supplier sup in
          let (out1, cleared_cells) := clear_loop rows cols out in
          let out2 := match west with [] => out1 | _ => drop_cols west out1 end in
          Ok (out2, {| columns_to_clear_count := length cols;
                       west_columns_dropped := length west;
                       rows_eligible_by_supplier_rule := length rows;
                       cleared_cells_estimate := cleared_cells;
                       summary_protected_supplier := protected_supplier |})
      end
  | _ => Err IndexError
  end.

(** ** The removal template *)

(** The sheet [clients_to_clear] as [pd.read_excel(..., dtype=str).fillna("")]
    gives it: named columns of text cells (pandas keeps column names
    unique), all of the same length. *)
Definition table : Type := list (string * list string).

(** [name in tpl.columns] / [tpl[name]]. *)
Fixpoint lookup_col (t : table) (name : string) : option (list string) :=
  match t with
  | [] => None
  | (n, vs) :: t' => if String.eqb n name then Some vs else lookup_col t' name
  end.

Definition nonempty (s : string) : bool := negb (String.eqb s "").

(** The body shared by [load_template_from_file] and
    [load_template_from_bytes] once [pd.read_excel] has produced the table:
    returns [(shop_codes, nicknames)]. *)
Definition load_template (tpl : table) : result (list string * list string) :=
  match lookup_col tpl "shop_code" with
  | None => Err ConfigError
  | Some codes =>
      let nicks :=
        match lookup_col tpl "shop_nickname_optional" with
        | Some ns => ns
        | None => repeat "" (length codes)
        end in
      let codes' := map (fun s => strip (sub_dot0 s)) codes in
      let nicks' := map strip nicks in
      Ok (to_set (filter nonempty codes'), to_set (filter nonempty nicks'))
  end.

(** ** The two loaders and the run of [main] *)

(** What stops a run of [main] after the order file was given: an
    exception raised by a loader or by [transform_order], or the missing
    default template ([FileNotFoundError]). *)
Inductive failure : Type :=
| FileNotFoundError
| Raised (e : error).

(** [load_template_from_file]: [None] stands for a path that does not
    exist; otherwise the table read from it. *)
Definition load_template_from_file (file : option table)
  : failure + (list string * list string) :=
  match file with
  | None => inl FileNotFoundError
  | Some tpl =>
      match load_template tpl with
      | Ok p => inr p
      | Err e => inl (Raised e)
      end
  end.

(** [load_template_from_bytes], from the table read out of the bytes. *)
Definition load_template_from_bytes (tpl : table) : failure + (list string * list string) :=
  match load_template tpl with
  | Ok p => inr p
  | Err e => inl (Raised e)
  end.

(** How a run of [main] (button pressed) ends. *)
Inductive outcome : Type :=
| OrderMissing                      (* "Please upload the order file." *)
| TemplateMissing                   (* "Please upload a template or enable ..." *)
| NothingToClear                    (* the warning, no transformation *)
| Failed (f : failure)              (* "Error during transformation: ..." *)
| Cleaned (out : sheet) (s : summary).  (* summary and download offered *)

Definition is_empty {A} (l : list A) : bool :=
  match l with [] => true | _ => false end.

(** The body of [main] under [if run_btn:], from the uploaded order sheet,
    the checkbox, the default template file and the uploaded template. *)
Definition main_run (order_file : option sheet) (use_config_template : bool)
  (config_template : option table) (uploaded_template_file : option table)
  (protected_supplier west_prefix : string) : outcome :=
  match order_file with
  | None => OrderMissing
  | Some order =>
      let loaded :=
        if use_config_template then Some (load_template_from_file config_template)
        else match uploaded_template_file with
             | None => None
             | Some tpl => Some (load_template_from_bytes tpl)
             end in
      match loaded with
      | None => TemplateMissing
      | Some (inl f) => Failed f
      | Some (inr (shop_codes, nicknames)) =>
          if is_empty shop_codes && is_empty nicknames then NothingToClear
          else
            match transform_order order shop_codes nicknames protected_supplier west_prefix with
            | Ok (cleaned, summary) => Cleaned cleaned summary
            | Err e => Failed (Raised e)
            end
      end
  end.

(** Whether data row [r] is eligible: at or below [data_start], and its
    supplier cell (column [cs]), as text and stripped, differs from the
    protected supplier. *)
Definition eligible_row (g : sheet) (ps : string) (cs r : nat) : bool :=
  (data_start <=? r) && negb (String.eqb (strip (to_str (at_rc g r cs))) ps).

(** ** Views of the frame used in the statements *)

(** Row [k] of the parsed frame coerced to text ([hdr_nickname] for 0,
    [hdr_address] for 1). *)
Definition hdr (g : sheet) (k : nat) : list string := row_str (nth k (parse g) []).

Definition supplier_column (g : sheet) : option nat := find_col (hdr g 0) supplier_label.

Definition clear_set (g : sheet) (sc nk : list string) : list nat :=
  columns_to_clear sc nk (hdr g 0) (hdr g 1).

Definition west_columns (g : sheet) (west_prefix : string) : list nat :=
  west_cols west_prefix (hdr g 0).

(** The columns that survive [drop], in order. *)
Definition kept_columns (g : sheet) (west_prefix : string) : list nat :=
  filter (fun i => negb (mem_nat i (west_columns g west_prefix))) (seq 0 (width g)).

(** Whether column [c] is selected for clearing, read off its two header cells. *)
Definition clear_col (sc nk : list string) (hdr_nickname hdr_address : list string)
  (c : nat) : bool :=
  match code_search (nth c hdr_address "") with
  | Some code => mem_str code sc
  | None => false
  end
  || mem_str (strip (nth c hdr_nickname "")) nk.

(** The value the frame holds at row [r], column [c] after the clearing
    loop, when the supplier column is [cs]. *)
Definition new_cell (g : sheet) (sc nk : list string) (ps : string) (cs r c : nat) : cell :=
  if (data_start <=? r) && clear_col sc nk (hdr g 0) (hdr g 1) c
     && negb (String.eqb (strip (to_str (at_rc g r cs))) ps)
  then Str "" else at_rc g r c.

Definition rect (n : nat) (g : sheet) : Prop := Forall (fun row => length row = n) g.

(** ** Sample inputs *)

(** The order sheet of the spec's scenario: supplier column, a shop whose
    address carries [#003#], the shop nicknamed [ვანთა], a West aggregate;
    data rows 3..5 with suppliers [other], the protected one, [other]. *)
Definition example_order : sheet :=
  [[Str supplier_label; Str "ვაკე"; Str "ვანთა"; Str "დასავლეთი სულ"];
   [NaN; Str "#003# ქ.თბილისი"; Str "#465# მისამართი"; NaN];
   [NaN; Str "შესაკვეთი რაოდენობა"; Str "შესაკვეთი რაოდენობა"; NaN];
   [Str "other"; Num "5"; Num "2"; Num "7"];
   [Str default_protected_supplier; Num "1"; Num "4"; Num "5"];
   [Str "other"; Num "3"; NaN; Num "3"]].

Definition example_codes : list string := ["003"].
Definition example_nicknames : list string := ["ვანთა"].

(** A sheet whose nickname row has a missing cell (column 1). *)
Definition missing_header_order : sheet :=
  [[Str supplier_label; NaN; Str "ვაკე"];
   [NaN; NaN; NaN];
   [NaN; NaN; NaN];
   [Str "other"; Num "2"; Num "3"]].

(** A template with a numeric code read back as text. *)
Definition float_code_template : table :=
  [("shop_code", ["465.0"; "003"]); ("notes_optional", [""; ""])].

Definition code_only_template : table := [("shop_code", ["003"; " 465 "; ""])].

(** What [transform_order] returns on [example_order]: column 2 blanked in
    rows 3 and 5, the West column gone. *)
Definition example_output : sheet :=
  [[Str supplier_label; Str "ვაკე"; Str "ვანთა"];
   [NaN; Str "#003# ქ.თბილისი"; Str "#465# მისამართი"];
   [NaN; Str "შესაკვეთი რაოდენობა"; Str "შესაკვეთი რაოდენობა"];
   [Str "other"; Num "5"; Str ""];
   [Str default_protected_supplier; Num "1"; Num "4"];
   [Str "other"; Num "3"; Str ""]].

Definition example_summary : summary :=
  {| columns_to_clear_count := 1;
     west_columns_dropped := 1;
     rows_eligible_by_supplier_rule := 2;
     cleared_cells_estimate := 1;
     summary_protected_supplier := default_protected_supplier |}.

(** ** Lemmas on lists *)

Lemma mem_nat_In x xs : mem_nat x xs = true <-> In x xs.
Proof.
  unfold mem_nat. rewrite existsb_exists. split.
  - intros (y & Hy & E). apply Nat.eqb_eq in E. subst; auto.
  - intros H. exists x. split; auto. apply Nat.eqb_refl.
Qed.

Lemma mem_str_In x xs : mem_str x xs = true <-> In x xs.
Proof.
  unfold mem_str. rewrite existsb_exists. split.
  - intros (y & Hy & E). apply String.eqb_eq in E. subst; auto.
  - intros H. exists x. split; auto. apply String.eqb_refl.
Qed.

Lemma In_combine_seq {A} (l : list A) k i x d :
  In (i, x) (combine (seq k (length l)) l) <->
  k <= i < k + length l /\ nth (i - k) l d = x.
Proof.
  revert k. induction l as [|a l IH]; intros k; simpl.
  - split; [tauto | lia].
  - rewrite IH. split.
    + intros [E | (Hr & Hn)].
      * inversion E; subst. rewrite Nat.sub_diag. split; [lia | reflexivity].
      * split; [lia|]. replace (i - k) with (S (i - S k)) by lia. exact Hn.
    + intros (Hr & Hn). destruct (Nat.eq_dec i k) as [->|Hne].
      * left. rewrite Nat.sub_diag in Hn. subst; reflexivity.
      * right. split; [lia|]. replace (i - k) with (S (i - S k)) in Hn by lia. exact Hn.
Qed.

Lemma length_map_combine_seq {A B} (F : nat * A -> B) (l : list A) k :
  length (map F (combine (seq k (length l)) l)) = length l.
Proof.
  rewrite length_map, length_combine, length_seq. lia.
Qed.

Lemma nth_map_combine_seq {A B} (F : nat * A -> B) (l : list A) k r dA dB :
  r < length l ->
  nth r (map F (combine (seq k (length l)) l)) dB = F (k + r, nth r l dA).
Proof.
  revert k r. induction l as [|a l IH]; intros k r Hr; simpl in *; [lia|].
  destruct r as [|r].
  - rewrite Nat.add_0_r. reflexivity.
  - rewrite IH by lia. f_equal. f_equal. lia.
Qed.

Lemma map_nth_seq_shift {A} (l : list A) k d :
  map (fun i => nth (i - k) l d) (seq k (length l)) = l.
Proof.
  revert k. induction l as [|a l IH]; intros k; simpl; [reflexivity|].
  rewrite Nat.sub_diag. f_equal. rewrite <- (IH (S k)) at 2.
  apply map_ext_in. intros i Hi. apply in_seq in Hi.
  replace (i - k) with (S (i - S k)) by lia. reflexivity.
Qed.

(** Filtering an enumerated list on the index. *)
Lemma filter_enum_snd (P : nat * cell -> bool) (p : nat -> bool) (row : list cell) k :
  (forall i x, P (i, x) = p i) ->
  map snd (filter P (combine (seq k (length row)) row)) =
  map (fun i => nth (i - k) row NaN) (filter p (seq k (length row))).
Proof.
  intros HP. revert k. induction row as [|a row IH]; intros k; simpl; [reflexivity|].
  rewrite HP. destruct (p k); simpl.
  - rewrite Nat.sub_diag. f_equal. rewrite IH. apply map_ext_in.
    intros i Hi. apply filter_In in Hi as [Hi _]. apply in_seq in Hi.
    replace (i - k) with (S (i - S k)) by lia. reflexivity.
  - rewrite IH. apply map_ext_in.
    intros i Hi. apply filter_In in Hi as [Hi _]. apply in_seq in Hi.
    replace (i - k) with (S (i - S k)) by lia. reflexivity.
Qed.

Lemma filter_seq_sorted (p : nat -> bool) n : forall a i j d,
  i < j < length (filter p (seq a n)) ->
  nth i (filter p (seq a n)) d < nth j (filter p (seq a n)) d.
Proof.
  induction n as [|n IH]; intros a i j d H; simpl in *; [lia|].
  destruct (p a); simpl in *.
  - destruct i as [|i]; destruct j as [|j]; try lia.
    + assert (Hin : In (nth j (filter p (seq (S a) n)) d) (filter p (seq (S a) n)))
        by (apply nth_In; lia).
      apply filter_In in Hin as [Hin _]. apply in_seq in Hin. lia.
    + apply IH. lia.
  - apply IH. exact H.
Qed.

Lemma rect_ext n (a b : sheet) :
  rect n a -> rect n b -> length a = length b ->
  (forall r c, r < length a -> c < n -> at_rc a r c = at_rc b r c) -> a = b.
Proof.
  intros Ha Hb Hl Hc. apply nth_ext with (d := []) (d' := []); [exact Hl|].
  intros r Hr.
  assert (La : length (nth r a []) = n)
    by (unfold rect in Ha; rewrite Forall_forall in Ha; apply Ha, nth_In; lia).
  assert (Lb : length (nth r b []) = n)
    by (unfold rect in Hb; rewrite Forall_forall in Hb; apply Hb, nth_In; lia).
  apply nth_ext with (d := NaN) (d' := NaN); [congruence|].
  intros c Hc'. apply (Hc r c); lia.
Qed.

(** ** The parsed frame *)

Lemma row_le_width (g : sheet) r : length (nth r g []) <= width g.
Proof.
  revert r. induction g as [|row g IH]; intros [|r]; simpl; try lia.
  specialize (IH r). lia.
Qed.

Lemma length_parse g : length (parse g) = length g.
Proof. unfold parse. apply length_map. Qed.

Lemma rect_parse g : rect (width g) (parse g).
Proof.
  unfold rect, parse. apply Forall_forall. intros row Hrow.
  apply in_map_iff in Hrow as (row0 & <- & _). rewrite length_map, length_seq. reflexivity.
Qed.

Lemma nth_map_lt {A B} (f : A -> B) l n d d' :
  n < length l -> nth n (map f l) d = f (nth n l d').
Proof.
  intros H. rewrite nth_indep with (d' := f d') by (rewrite length_map; exact H).
  apply map_nth.
Qed.

Lemma at_rc_parse g r c : at_rc (parse g) r c = at_rc g r c.
Proof.
  unfold at_rc, parse.
  destruct (Nat.lt_ge_cases r (length g)) as [Hr|Hr].
  - rewrite nth_map_lt with (d' := []) by exact Hr.
    unfold cell_at at 1.
    destruct (Nat.lt_ge_cases c (width g)) as [Hc|Hc].
    + rewrite nth_map_lt with (d' := 0) by (rewrite length_seq; exact Hc).
      rewrite seq_nth by exact Hc. reflexivity.
    + rewrite nth_overflow by (rewrite length_map, length_seq; exact Hc).
      pose proof (row_le_width g r). unfold cell_at. rewrite nth_overflow by lia.
      reflexivity.
  - rewrite !nth_overflow by (try rewrite length_map; exact Hr).
    unfold cell_at. destruct c; reflexivity.
Qed.

Lemma length_hdr g k : k < length g -> length (hdr g k) = width g.
Proof.
  intros Hk. unfold hdr, row_str. rewrite length_map.
  pose proof (rect_parse g) as H. unfold rect in H. rewrite Forall_forall in H.
  apply H, nth_In. rewrite length_parse. exact Hk.
Qed.

Lemma nth_hdr g k c :
  k < length g -> c < width g -> nth c (hdr g k) "" = to_str (at_rc g k c).
Proof.
  intros Hk Hc. rewrite <- at_rc_parse. unfold hdr, row_str, at_rc, cell_at.
  apply nth_map_lt. pose proof (rect_parse g) as H. unfold rect in H.
  rewrite Forall_forall in H. rewrite H; [exact Hc|]. apply nth_In.
  rewrite length_parse. exact Hk.
Qed.

(** ** The clearing loop *)

Lemma length_set_nth {A} (l : list A) n x : length (set_nth l n x) = length l.
Proof.
  revert n. induction l as [|a l IH]; intros [|n]; simpl; auto.
Qed.

Lemma nth_set_nth {A} (l : list A) n x m d :
  n < length l -> nth m (set_nth l n x) d = if m =? n then x else nth m l d.
Proof.
  revert n m. induction l as [|a l IH]; intros [|n] [|m] Hn; simpl in *; try lia; auto.
  apply IH. lia.
Qed.

Lemma set_col_rows_shape rows c n out :
  rect n out -> rect n (set_col_rows rows c out) /\ length (set_col_rows rows c out) = length out.
Proof.
  intros H. unfold set_col_rows, enumerate. split; [|apply length_map_combine_seq].
  unfold rect in *. rewrite Forall_forall in *. intros row Hrow.
  apply in_map_iff in Hrow as ([r row0] & <- & Hin).
  apply in_combine_r in Hin.
  destruct (mem_nat r rows); [rewrite length_set_nth|]; apply H; exact Hin.
Qed.

Lemma at_set_col_rows rows c n out r c' :
  rect n out -> c < n -> r < length out ->
  at_rc (set_col_rows rows c out) r c' =
  if mem_nat r rows && (c' =? c) then Str "" else at_rc out r c'.
Proof.
  intros H Hc Hr. unfold at_rc, set_col_rows, enumerate.
  rewrite nth_map_combine_seq with (dA := []) by exact Hr. simpl.
  assert (Hl : length (nth r out []) = n)
    by (unfold rect in H; rewrite Forall_forall in H; apply H, nth_In; exact Hr).
  destruct (mem_nat r rows); simpl; [|reflexivity].
  unfold cell_at. rewrite nth_set_nth by lia. reflexivity.
Qed.

Lemma fst_clear_loop rows cols out k :
  fst (fold_left (fun '(out, n) c => (set_col_rows rows c out, n + count_notna rows c out))
         cols (out, k))
  = fold_left (fun out c => set_col_rows rows c out) cols out.
Proof.
  revert out k. induction cols as [|c cols IH]; intros out k; simpl; [reflexivity|].
  apply IH.
Qed.

Lemma clear_loop_spec rows cols n out :
  rect n out -> Forall (fun c => c < n) cols ->
  let out' := fst (clear_loop rows cols out) in
  rect n out' /\ length out' = length out /\
  forall r c, r < length out ->
    at_rc out' r c = if mem_nat r rows && mem_nat c cols then Str "" else at_rc out r c.
Proof.
  intros H Hcols. cbv zeta. unfold clear_loop. rewrite fst_clear_loop.
  revert out H. induction cols as [|c cols IH]; intros out H; simpl.
  - split; [exact H|]. split; [reflexivity|]. intros r c Hr.
    unfold mem_nat; simpl. rewrite andb_false_r. reflexivity.
  - inversion Hcols as [|? ? Hc Hcols']; subst.
    destruct (set_col_rows_shape rows c n out H) as [H1 L1].
    destruct (IH Hcols' _ H1) as (H2 & L2 & E2).
    split; [exact H2|]. split; [congruence|].
    intros r c' Hr. rewrite E2 by lia.
    rewrite at_set_col_rows with (n := n) by assumption.
    unfold mem_nat at 2; simpl. fold (mem_nat c' cols).
    destruct (mem_nat r rows), (c' =? c), (mem_nat c' cols); reflexivity.
Qed.

(** ** Dropping columns *)

Lemma drop_row (cols : list nat) (row : list cell) :
  map snd (filter (fun '(i, _) => negb (mem_nat i cols)) (enumerate row)) =
  map (cell_at row) (filter (fun i => negb (mem_nat i cols)) (seq 0 (length row))).
Proof.
  unfold enumerate. rewrite filter_enum_snd with (p := fun i => negb (mem_nat i cols))
    by reflexivity.
  apply map_ext. intros i. rewrite Nat.sub_0_r. reflexivity.
Qed.

Lemma drop_cols_spec cols n out :
  rect n out ->
  let kept := filter (fun i => negb (mem_nat i cols)) (seq 0 n) in
  rect (length kept) (drop_cols cols out) /\ length (drop_cols cols out) = length out /\
  forall r j, r < length out -> j < length kept ->
    at_rc (drop_cols cols out) r j = at_rc out r (nth j kept 0).
Proof.
  intros H kept. unfold rect in *. rewrite Forall_forall in H.
  assert (Hrow : forall row, In row out ->
            map snd (filter (fun '(i, _) => negb (mem_nat i cols)) (enumerate row))
            = map (cell_at row) kept)
    by (intros row Hin; rewrite drop_row, (H row Hin); reflexivity).
  split; [|split].
  - apply Forall_forall. intros row' Hin. unfold drop_cols in Hin.
    apply in_map_iff in Hin as (row & <- & Hin). rewrite Hrow by exact Hin.
    apply length_map.
  - apply length_map.
  - intros r j Hr Hj. unfold at_rc, drop_cols.
    rewrite nth_map_lt with (d' := []) by exact Hr.
    rewrite Hrow by (apply nth_In; exact Hr).
    unfold cell_at at 1. rewrite nth_map_lt with (d' := 0) by exact Hj.
    reflexivity.
Qed.

Lemma drop_cols_nil n out : rect n out -> drop_cols [] out = out.
Proof.
  intros H. unfold drop_cols. rewrite <- map_id. apply map_ext_in.
  intros row _. rewrite drop_row. simpl. rewrite filter_true.
  pose proof (map_nth_seq_shift row 0 NaN) as E.
  etransitivity; [|exact E]. apply map_ext. intros i. rewrite Nat.sub_0_r. reflexivity.
Qed.

(** ** Column selection *)

Lemma filter_enum_fst {A} (P : nat * A -> bool) (l : list A) k d :
  map fst (filter P (combine (seq k (length l)) l)) =
  filter (fun i => P (i, nth (i - k) l d)) (seq k (length l)).
Proof.
  revert k. induction l as [|a l IH]; intros k; [reflexivity|].
  change (seq k (length (a :: l))) with (k :: seq (S k) (length l)).
  change (combine (k :: seq (S k) (length l)) (a :: l))
    with ((k, a) :: combine (seq (S k) (length l)) l).
  assert (E : filter (fun i => P (i, nth (i - k) (a :: l) d)) (seq (S k) (length l)) =
              filter (fun i => P (i, nth (i - S k) l d)) (seq (S k) (length l))).
  { apply filter_ext_in. intros i Hi. apply in_seq in Hi.
    replace (i - k) with (S (i - S k)) by lia. reflexivity. }
  cbn [filter]. rewrite E, <- IH, Nat.sub_diag. cbn [nth].
  destruct (P (k, a)); reflexivity.
Qed.

Lemma set_add_nat_In x s c : In c (set_add_nat x s) <-> c = x \/ In c s.
Proof.
  unfold set_add_nat. destruct (mem_nat x s) eqn:E.
  - apply mem_nat_In in E. split; [tauto|]. intros [->|H]; auto.
  - rewrite in_app_iff. simpl. intuition (subst; auto).
Qed.

Lemma set_add_nat_NoDup x s : NoDup s -> NoDup (set_add_nat x s).
Proof.
  intros H. unfold set_add_nat. destruct (mem_nat x s) eqn:E; [exact H|].
  apply NoDup_app; [exact H | constructor; [simpl; tauto | constructor] |].
  intros y Hy [<-|[]]. apply (proj2 (mem_nat_In x s)) in Hy. congruence.
Qed.

(** The two matching loops: a fold of [add] guarded by a test on the value. *)
Lemma fold_set_add_spec {A} (f : A -> bool) (l : list (nat * A)) acc :
  let res := fold_left (fun acc (p : nat * A) =>
                          let '(i, x) := p in if f x then set_add_nat i acc else acc) l acc in
  (forall c, In c res <-> In c acc \/ exists x, In (c, x) l /\ f x = true) /\
  (NoDup acc -> NoDup res).
Proof.
  cbv zeta. revert acc. induction l as [|[i x] l IH]; intros acc; simpl.
  - split; [|tauto]. intros c. split; [tauto|]. intros [H|(y & [] & _)]; exact H.
  - destruct (IH (if f x then set_add_nat i acc else acc)) as [IH1 IH2]. split.
    + intros c. rewrite IH1. destruct (f x) eqn:Ef.
      * rewrite set_add_nat_In. split.
        -- intros [[->|H]|(y & Hy & Fy)]; [right; exists x; auto | left; auto | right; eauto].
        -- intros [H|(y & [E|Hy] & Fy)]; [left; auto | inversion E; subst; left; left; auto
                                         | right; eauto].
      * split.
        -- intros [H|(y & Hy & Fy)]; [left; auto | right; eauto].
        -- intros [H|(y & [E|Hy] & Fy)]; [left; auto | inversion E; subst; congruence
                                         | right; eauto].
    + intros Hnd. apply IH2. destruct (f x); [apply set_add_nat_NoDup|]; exact Hnd.
Qed.

Lemma In_enumerate {A} (l : list A) i x d :
  In (i, x) (enumerate l) <-> i < length l /\ nth i l d = x.
Proof.
  unfold enumerate. rewrite (In_combine_seq l 0 i x d), Nat.sub_0_r. split; intros [H1 H2]; split; auto; lia.
Qed.

Lemma fold_shop_map_spec (l : list (nat * string)) acc c code :
  In (c, code)
    (fold_left (fun acc (p : nat * string) => let '(i, meta) := p in
                  match code_search meta with
                  | Some code => (acc ++ [(i, code)])%list
                  | None => acc
                  end) l acc)
  <-> In (c, code) acc \/ exists meta, In (c, meta) l /\ code_search meta = Some code.
Proof.
  revert acc. induction l as [|[i meta] l IH]; intros acc; simpl.
  - split; [tauto|]. intros [H|(m & [] & _)]; exact H.
  - rewrite IH. destruct (code_search meta) as [code'|] eqn:Es.
    + rewrite in_app_iff. simpl. split.
      * intros [[H|[E|[]]]|(m & Hm & Fm)]; [left; auto | | right; eauto].
        inversion E; subst. right. exists meta. auto.
      * intros [H|(m & [E|Hm] & Fm)]; [left; left; auto | | right; eauto].
        inversion E; subst. rewrite Es in Fm. inversion Fm; subst. left; right; left; auto.
    + split.
      * intros [H|(m & Hm & Fm)]; [left; auto | right; eauto].
      * intros [H|(m & [E|Hm] & Fm)]; [left; auto | | right; eauto].
        inversion E; subst. congruence.
Qed.

Lemma In_shop_cols_map ha c code :
  In (c, code) (shop_cols_map ha) <-> c < length ha /\ code_search (nth c ha "") = Some code.
Proof.
  unfold shop_cols_map. rewrite fold_shop_map_spec. split.
  - intros [[]|(m & Hm & Fm)]. apply (In_enumerate ha c m "") in Hm as [Hc <-]. auto.
  - intros [Hc Fc]. right. exists (nth c ha ""). split; [|exact Fc].
    apply (proj2 (In_enumerate ha c _ "")). auto.
Qed.

Lemma columns_to_clear_spec sc nk hn ha :
  (forall c, In c (columns_to_clear sc nk hn ha) <->
     (exists code, In (c, code) (shop_cols_map ha) /\ In code sc) \/
     (c < length hn /\ In (strip (nth c hn "")) nk)) /\
  NoDup (columns_to_clear sc nk hn ha).
Proof.
  unfold columns_to_clear, match_by_nickname, match_by_code.
  destruct (fold_set_add_spec (fun code => mem_str code sc) (shop_cols_map ha) [])
    as [H1 N1].
  destruct (fold_set_add_spec (fun nick => mem_str (strip nick) nk) (enumerate hn)
              (fold_left (fun acc (p : nat * string) => let '(i, x) := p in
                            if mem_str x sc then set_add_nat i acc else acc)
                 (shop_cols_map ha) []))
    as [H2 N2].
  split.
  - intros c. rewrite H2, H1. split.
    + intros [[[]|(code & Hm & Fm)]|(nick & Hn & Fn)].
      * left. exists code. split; [exact Hm|]. apply mem_str_In. exact Fm.
      * right. apply (In_enumerate hn c nick "") in Hn as [Hc <-].
        split; [exact Hc|]. apply mem_str_In. exact Fn.
    + intros [(code & Hm & Fm)|(Hc & Fn)].
      * left. right. exists code. split; [exact Hm|]. apply mem_str_In. exact Fm.
      * right. exists (nth c hn ""). split; [apply (proj2 (In_enumerate hn c _ "")); auto|].
        apply mem_str_In. exact Fn.
  - apply N2, N1. constructor.
Qed.

Lemma In_columns_to_clear sc nk hn ha c :
  length ha = length hn ->
  In c (columns_to_clear sc nk hn ha) <-> c < length hn /\ clear_col sc nk hn ha c = true.
Proof.
  intros Hl. rewrite (proj1 (columns_to_clear_spec sc nk hn ha)). unfold clear_col.
  rewrite orb_true_iff, mem_str_In. split.
  - intros [(code & Hm & Fm)|(Hc & Fn)].
    + apply In_shop_cols_map in Hm as [Hc Hs]. rewrite Hs, mem_str_In.
      split; [lia | left; exact Fm].
    + split; [exact Hc | right; exact Fn].
  - intros [Hc [Hs|Fn]].
    + destruct (code_search (nth c ha "")) as [code|] eqn:Es; [|discriminate].
      left. exists code. split; [apply In_shop_cols_map; split; [lia | exact Es]|].
      apply mem_str_In. exact Hs.
    + right. auto.
Qed.

Lemma west_cols_filter wp hn :
  west_cols wp hn = filter (fun i => startswith (strip (nth i hn "")) wp) (seq 0 (length hn)).
Proof.
  unfold west_cols, enumerate. rewrite filter_enum_fst with (d := "").
  apply filter_ext. intros i. rewrite Nat.sub_0_r. reflexivity.
Qed.

Lemma In_west_cols wp hn i :
  In i (west_cols wp hn) <-> i < length hn /\ startswith (strip (nth i hn "")) wp = true.
Proof.
  rewrite west_cols_filter, filter_In, in_seq. split; intros [H1 H2]; split; auto; lia.
Qed.

Lemma find_col_from_S i hs name :
  find_col_from (S i) hs name = option_map S (find_col_from i hs name).
Proof.
  revert i. induction hs as [|v hs IH]; intros i; simpl; [reflexivity|].
  destruct (String.eqb (strip v) name); [reflexivity | apply IH].
Qed.

Lemma find_col_Some hs name j :
  find_col hs name = Some j <->
  j < length hs /\ strip (nth j hs "") = name /\
  forall k, k < j -> strip (nth k hs "") <> name.
Proof.
  unfold find_col. revert j. induction hs as [|v hs IH]; intros j; simpl.
  - split; [discriminate | lia].
  - destruct (String.eqb (strip v) name) eqn:E.
    + apply String.eqb_eq in E. split.
      * intros H. inversion H; subst. split; [lia|]. split; [reflexivity|]. lia.
      * intros (Hj & Hs & Hk). destruct j as [|j]; [reflexivity|].
        exfalso. apply (Hk 0); [lia | exact E].
    + apply String.eqb_neq in E. rewrite find_col_from_S. split.
      * intros H. destruct (find_col_from 0 hs name) as [j'|] eqn:F; [|discriminate].
        simpl in H. inversion H; subst.
        destruct (proj1 (IH j') eq_refl) as (Hj & Hs & Hk).
        split; [lia|]. split; [exact Hs|]. intros [|k] Hlt; [exact E|]. apply Hk. lia.
      * intros (Hj & Hs & Hk). destruct j as [|j]; [contradiction|].
        rewrite (proj2 (IH j)); [reflexivity|].
        split; [lia|]. split; [exact Hs|]. intros k Hlt. apply (Hk (S k)). lia.
Qed.

Lemma find_col_None hs name :
  find_col hs name = None <-> forall k, k < length hs -> strip (nth k hs "") <> name.
Proof.
  unfold find_col. induction hs as [|v hs IH]; simpl.
  - split; [intros _ k Hk; lia | reflexivity].
  - destruct (String.eqb (strip v) name) eqn:E.
    + apply String.eqb_eq in E. split; [discriminate|].
      intros H. exfalso. apply (H 0); [lia | exact E].
    + apply String.eqb_neq in E. rewrite find_col_from_S.
      destruct (find_col_from 0 hs name) eqn:F; simpl.
      * split; [discriminate|]. intros H.
        assert (Hn : Some n = None) by (apply IH; intros k Hk; apply (H (S k)); lia).
        discriminate.
      * split; [|reflexivity]. intros _ [|k] Hk; [exact E|].
        apply (proj1 IH eq_refl). lia.
Qed.

Lemma skipn_combine {A B} k (a : list A) (b : list B) :
  skipn k (combine a b) = combine (skipn k a) (skipn k b).
Proof.
  revert a b. induction k as [|k IH]; intros a b; [reflexivity|].
  destruct a as [|x a], b as [|y b]; simpl; try reflexivity.
  - destruct (skipn k a); reflexivity.
  - apply IH.
Qed.

Lemma mem_rows_to_edit ps g cs r :
  r < length g ->
  mem_nat r (rows_to_edit ps (suppliers (parse g) cs)) =
  (data_start <=? r) && negb (String.eqb (strip (to_str (at_rc g r cs))) ps).
Proof.
  intros Hr. set (L := map (fun row => to_str (cell_at row cs)) (parse g)).
  assert (HL : length L = length g) by (unfold L; rewrite length_map; apply length_parse).
  assert (Hs : suppliers (parse g) cs = combine (seq data_start (length (skipn data_start L)))
                                                (skipn data_start L)).
  { unfold suppliers, enumerate. fold L. rewrite skipn_combine, skipn_seq, length_skipn.
    reflexivity. }
  unfold rows_to_edit. rewrite Hs, filter_enum_fst with (d := "").
  apply eq_true_iff_eq. rewrite mem_nat_In, filter_In, in_seq, length_skipn, HL,
    andb_true_iff, Nat.leb_le.
  rewrite nth_skipn. unfold data_start.
  destruct (Nat.le_gt_cases 3 r) as [H3|H3].
  - replace (3 + (r - 3)) with r by lia.
    unfold L. rewrite nth_map_lt with (d' := []) by (rewrite length_parse; exact Hr).
    change (cell_at (nth r (parse g) []) cs) with (at_rc (parse g) r cs).
    rewrite at_rc_parse. split; [intros [_ H]; split; [lia | exact H] |].
    intros [_ H]; split; [lia | exact H].
  - split; intros [H _]; lia.
Qed.

Lemma mem_clear_set g sc nk c :
  2 <= length g -> c < width g ->
  mem_nat c (clear_set g sc nk) = clear_col sc nk (hdr g 0) (hdr g 1) c.
Proof.
  intros Hg Hc. apply eq_true_iff_eq. rewrite mem_nat_In. unfold clear_set.
  rewrite In_columns_to_clear by (rewrite !length_hdr by lia; reflexivity).
  rewrite length_hdr by lia. split; [intros [_ H]; exact H | intros H; split; assumption].
Qed.

Lemma kept_lt g wp j :
  j < length (kept_columns g wp) -> nth j (kept_columns g wp) 0 < width g.
Proof.
  intros Hj. assert (Hin : In (nth j (kept_columns g wp) 0) (kept_columns g wp))
    by (apply nth_In; exact Hj).
  unfold kept_columns in *. apply filter_In in Hin as [Hin _]. apply in_seq in Hin. lia.
Qed.

(** The output frame of a successful run: the rows of the input, the
    surviving columns in order, each cell as the clearing loop left it. *)
Lemma transform_order_Ok g sc nk ps wp out s :
  transform_order g sc nk ps wp = Ok (out, s) ->
  exists cs, supplier_column g = Some cs /\ 2 <= length g /\ length out = length g /\
    rect (length (kept_columns g wp)) out /\
    forall r j, r < length g -> j < length (kept_columns g wp) ->
      at_rc out r j = new_cell g sc nk ps cs r (nth j (kept_columns g wp) 0).
Proof.
  intros H. unfold transform_order in H.
  assert (Hlen := length_parse g).
  destruct (parse g) as [|row0 [|row1 rest]] eqn:P; try discriminate.
  assert (H0 : row_str row0 = hdr g 0) by (unfold hdr; rewrite P; reflexivity).
  assert (H1 : row_str row1 = hdr g 1) by (unfold hdr; rewrite P; reflexivity).
  rewrite H0, H1, <- P in H. simpl in Hlen.
  assert (Hg : 2 <= length g) by lia.
  fold (supplier_column g) in H.
  destruct (supplier_column g) as [cs|] eqn:Fs; [|discriminate].
  fold (clear_set g sc nk) (west_columns g wp) in H.
  set (rows := rows_to_edit ps (suppliers (parse g) cs)) in H.
  destruct (clear_loop rows (clear_set g sc nk) (parse g)) as [out1 cnt] eqn:CL.
  assert (Hcols : Forall (fun c => c < width g) (clear_set g sc nk)).
  { apply Forall_forall. intros c Hc. unfold clear_set in Hc.
    rewrite In_columns_to_clear in Hc by (rewrite !length_hdr by lia; reflexivity).
    rewrite length_hdr in Hc by lia. apply Hc. }
  destruct (clear_loop_spec rows (clear_set g sc nk) (width g) (parse g) (rect_parse g) Hcols)
    as (R1 & L1 & E1).
  rewrite CL in R1, L1, E1. simpl in R1, L1, E1.
  assert (Hout : out = drop_cols (west_columns g wp) out1).
  { destruct (west_columns g wp) eqn:W; inversion H; subst; [|reflexivity].
    symmetry. apply (drop_cols_nil (width g)). exact R1. }
  destruct (drop_cols_spec (west_columns g wp) (width g) out1 R1) as (R2 & L2 & E2).
  fold (kept_columns g wp) in R2, E2.
  exists cs. split; [reflexivity|]. split; [exact Hg|].
  rewrite Hout, length_parse in *. split; [congruence|]. split; [exact R2|].
  intros r j Hr Hj. rewrite E2 by lia. rewrite E1 by lia.
  unfold rows. rewrite mem_rows_to_edit by exact Hr.
  rewrite mem_clear_set; [| exact Hg | apply kept_lt; exact Hj].
  rewrite at_rc_parse. unfold new_cell.
  destruct (data_start <=? r), (String.eqb (strip (to_str (at_rc g r cs))) ps),
    (clear_col sc nk (hdr g 0) (hdr g 1) (nth j (kept_columns g wp) 0)); reflexivity.
Qed.

Lemma transform_order_Err g sc nk ps wp e :
  transform_order g sc nk ps wp = Err e <->
  (length g < 2 /\ e = IndexError) \/
  (2 <= length g /\ supplier_column g = None /\ e = StructureError).
Proof.
  unfold transform_order. assert (Hlen := length_parse g).
  destruct (parse g) as [|row0 [|row1 rest]] eqn:P; simpl in Hlen.
  - split; [intros H; inversion H; left; split; [lia | reflexivity]|].
    intros [[_ ->]|[H _]]; [reflexivity | lia].
  - split; [intros H; inversion H; left; split; [lia | reflexivity]|].
    intros [[_ ->]|[H _]]; [reflexivity | lia].
  - assert (H0 : row_str row0 = hdr g 0) by (unfold hdr; rewrite P; reflexivity).
    assert (H1 : row_str row1 = hdr g 1) by (unfold hdr; rewrite P; reflexivity).
    rewrite H0, H1. fold (supplier_column g).
    destruct (supplier_column g) as [cs|].
    + destruct (clear_loop _ _ _). split; [discriminate|].
      intros [[H _]|(_ & H & _)]; [lia | discriminate].
    + split.
      * intros H. inversion H; subst. right. split; [lia|]. split; reflexivity.
      * intros [[H _]|(_ & _ & ->)]; [lia | reflexivity].
Qed.

Lemma transform_order_exists g sc nk ps wp cs :
  2 <= length g -> supplier_column g = Some cs ->
  exists out s, transform_order g sc nk ps wp = Ok (out, s).
Proof.
  intros Hg Hs. destruct (transform_order g sc nk ps wp) as [[out s]|e] eqn:E.
  - exists out, s. reflexivity.
  - apply transform_order_Err in E as [[H _]|(_ & H & _)]; [lia | congruence].
Qed.

Lemma rect_width n g : rect n g -> g <> [] -> width g = n.
Proof.
  intros H Hne. unfold rect in H. induction H as [|row g Hrow Hg IH]; [congruence|].
  simpl. destruct g as [|row' g'].
  - simpl. lia.
  - rewrite IH by discriminate. lia.
Qed.

Lemma parse_rect g : rect (width g) g -> parse g = g.
Proof.
  intros H. apply (rect_ext (width g)); [apply rect_parse | exact H | apply length_parse |].
  intros r c _ _. apply at_rc_parse.
Qed.

Lemma filter_all_false {A} (f : A -> bool) l :
  (forall x, In x l -> f x = false) -> filter f l = [].
Proof.
  induction l as [|a l IH]; intros H; simpl; [reflexivity|].
  rewrite H by (left; reflexivity). apply IH. intros x Hx. apply H. right; exact Hx.
Qed.

Lemma In_kept_columns g wp c :
  In c (kept_columns g wp) <-> c < width g /\ ~ In c (west_columns g wp).
Proof.
  unfold kept_columns. rewrite filter_In, in_seq, negb_true_iff.
  split.
  - intros [H1 H2]. split; [lia|]. intros Hin. apply mem_nat_In in Hin. congruence.
  - intros [H1 H2]. split; [lia|]. destruct (mem_nat c (west_columns g wp)) eqn:E; [|reflexivity].
    apply mem_nat_In in E. contradiction.
Qed.

Lemma In_west_columns g wp c :
  1 <= length g ->
  In c (west_columns g wp) <->
  c < width g /\ startswith (strip (to_str (at_rc g 0 c))) wp = true.
Proof.
  intros Hg. unfold west_columns. rewrite In_west_cols, length_hdr by lia.
  split; intros [Hc H]; split; try exact Hc; rewrite nth_hdr in * by lia; exact H.
Qed.

Lemma length_kept_columns g wp :
  1 <= length g ->
  length (kept_columns g wp) = width g - length (west_columns g wp).
Proof.
  intros Hg. unfold kept_columns.
  set (q := fun i => startswith (strip (nth i (hdr g 0) "")) wp).
  assert (W : west_columns g wp = filter q (seq 0 (width g))).
  { unfold west_columns. rewrite west_cols_filter, length_hdr by lia. reflexivity. }
  assert (E : filter (fun i => negb (mem_nat i (west_columns g wp))) (seq 0 (width g)) =
              filter (fun i => negb (q i)) (seq 0 (width g))).
  { apply filter_ext_in. intros i Hi. f_equal. apply eq_true_iff_eq.
    rewrite mem_nat_In, W, filter_In. split; [intros [_ H]; exact H | split; assumption]. }
  rewrite E, W. pose proof (filter_length q (seq 0 (width g))) as L.
  rewrite length_seq in L. lia.
Qed.

(** ** Re-running the transform on its output *)

Lemma rerun_hdr g sc nk ps wp out s k j :
  transform_order g sc nk ps wp = Ok (out, s) -> k < data_start -> k < length g ->
  length (hdr out k) = length (kept_columns g wp) /\
  (j < length (kept_columns g wp) ->
   nth j (hdr out k) "" = nth (nth j (kept_columns g wp) 0) (hdr g k) "").
Proof.
  intros H Hk Hkg.
  destruct (transform_order_Ok g sc nk ps wp out s H) as (cs & _ & Hg & Lo & Ro & Eo).
  assert (Ho : out <> []) by (intros ->; simpl in Lo; lia).
  assert (Wo : width out = length (kept_columns g wp)) by (apply rect_width; assumption).
  split.
  - rewrite length_hdr by lia. exact Wo.
  - intros Hj. rewrite nth_hdr by lia. rewrite nth_hdr by (try apply kept_lt; lia).
    rewrite Eo by lia. unfold new_cell.
    replace (data_start <=? k) with false by (symmetry; apply Nat.leb_gt; exact Hk).
    reflexivity.
Qed.

Lemma rerun_clear_col g sc nk ps wp out s j :
  transform_order g sc nk ps wp = Ok (out, s) -> j < length (kept_columns g wp) ->
  clear_col sc nk (hdr out 0) (hdr out 1) j =
  clear_col sc nk (hdr g 0) (hdr g 1) (nth j (kept_columns g wp) 0).
Proof.
  intros H Hj.
  destruct (transform_order_Ok g sc nk ps wp out s H) as (_ & _ & Hg & _).
  unfold clear_col.
  rewrite (proj2 (rerun_hdr g sc nk ps wp out s 0 j H ltac:(unfold data_start; lia) ltac:(lia)) Hj).
  rewrite (proj2 (rerun_hdr g sc nk ps wp out s 1 j H ltac:(unfold data_start; lia) ltac:(lia)) Hj).
  reflexivity.
Qed.

Lemma rerun_west g sc nk ps wp out s :
  transform_order g sc nk ps wp = Ok (out, s) -> west_columns out wp = [].
Proof.
  intros H. destruct (transform_order_Ok g sc nk ps wp out s H) as (_ & _ & Hg & _).
  unfold west_columns. rewrite west_cols_filter. apply filter_all_false.
  intros j Hj. apply in_seq in Hj.
  destruct (rerun_hdr g sc nk ps wp out s 0 j H ltac:(unfold data_start; lia) ltac:(lia))
    as [L E].
  rewrite L in Hj. rewrite E by lia.
  assert (Hin : In (nth j (kept_columns g wp) 0) (kept_columns g wp)) by (apply nth_In; lia).
  apply In_kept_columns in Hin as [Hc Hw].
  destruct (startswith _ wp) eqn:Es; [|reflexivity].
  exfalso. apply Hw. unfold west_columns. apply In_west_cols.
  rewrite length_hdr by lia. split; [exact Hc | exact Es].
Qed.

Lemma rerun_supplier g sc nk ps wp out s cs :
  transform_order g sc nk ps wp = Ok (out, s) ->
  supplier_column g = Some cs ->
  startswith supplier_label wp = false ->
  exists js, supplier_column out = Some js /\ js < length (kept_columns g wp) /\
             nth js (kept_columns g wp) 0 = cs.
Proof.
  intros H Hs Hwp.
  destruct (transform_order_Ok g sc nk ps wp out s H) as (_ & _ & Hg & _).
  pose proof (fun j => rerun_hdr g sc nk ps wp out s 0 j H ltac:(unfold data_start; lia)
                         ltac:(lia)) as RH.
  unfold supplier_column in Hs. apply find_col_Some in Hs as (Hc & Hl & Hmin).
  rewrite length_hdr in Hc by lia.
  assert (Hin : In cs (kept_columns g wp)).
  { apply In_kept_columns. split; [exact Hc|]. intros Hw. unfold west_columns in Hw.
    apply In_west_cols in Hw as [_ Hw]. rewrite Hl in Hw. congruence. }
  apply (In_nth _ _ 0) in Hin as (js & Hjs & Ejs).
  exists js. split; [|split; assumption].
  unfold supplier_column. apply find_col_Some.
  split; [rewrite (proj1 (RH 0)); exact Hjs|].
  split; [rewrite (proj2 (RH js)) by exact Hjs; rewrite Ejs; exact Hl|].
  intros i Hi. rewrite (proj2 (RH i)) by lia. apply Hmin.
  rewrite <- Ejs. unfold kept_columns in *. apply filter_seq_sorted. lia.
Qed.

Lemma rerun_no_supplier g sc nk ps wp out s :
  transform_order g sc nk ps wp = Ok (out, s) ->
  startswith supplier_label wp = true ->
  (forall cs, supplier_column g = Some cs -> In cs (west_columns g wp)) /\
  supplier_column out = None.
Proof.
  intros H Hwp.
  destruct (transform_order_Ok g sc nk ps wp out s H) as (_ & _ & Hg & _).
  pose proof (fun j => rerun_hdr g sc nk ps wp out s 0 j H ltac:(unfold data_start; lia)
                         ltac:(lia)) as RH.
  split.
  - intros cs Hs. unfold supplier_column in Hs. apply find_col_Some in Hs as (Hc & Hl & _).
    unfold west_columns. apply In_west_cols. split; [exact Hc|]. rewrite Hl. exact Hwp.
  - unfold supplier_column. apply find_col_None. intros k Hk.
    rewrite (proj1 (RH 0)) in Hk. rewrite (proj2 (RH k)) by exact Hk.
    assert (Hin : In (nth k (kept_columns g wp) 0) (kept_columns g wp)) by (apply nth_In; lia).
    apply In_kept_columns in Hin as [Hc Hw]. intros Heq. apply Hw.
    unfold west_columns. apply In_west_cols. rewrite length_hdr by lia.
    split; [exact Hc|]. rewrite Heq. exact Hwp.
Qed.

Lemma clear_col_nil hn ha c : clear_col [] [] hn ha c = false.
Proof. unfold clear_col. destruct (code_search (nth c ha "")); reflexivity. Qed.

(** * The claims *)

(** C1 (protection invariant): in a successful run, a data row (index 3 or
    more) whose supplier cell, as text and stripped, equals
    [protected_supplier] keeps every cell of every surviving column, also
    in the columns selected for clearing. *)
Theorem protected_row_untouched g sc nk ps wp out s cs r :
  transform_order g sc nk ps wp = Ok (out, s) ->
  supplier_column g = Some cs ->
  data_start <= r -> r < length g ->
  strip (to_str (at_rc g r cs)) = ps ->
  forall j, j < length (kept_columns g wp) ->
    at_rc out r j = at_rc g r (nth j (kept_columns g wp) 0).
Proof.
  intros H Hs H3 Hr Hp j Hj.
  destruct (transform_order_Ok g sc nk ps wp out s H) as (cs' & Hs' & _ & _ & _ & E).
  rewrite Hs in Hs'. inversion Hs'; subst cs'.
  rewrite E by assumption. unfold new_cell.
  rewrite Hp, String.eqb_refl, andb_false_r. reflexivity.
Qed.

Lemma protected_row_untouched_witness :
  transform_order example_order example_codes example_nicknames
    default_protected_supplier default_west_prefix = Ok (example_output, example_summary) /\
  at_rc example_output 4 2 = at_rc example_order 4 2.
Proof.
  split; [vm_compute; reflexivity|].
  apply (protected_row_untouched example_order example_codes example_nicknames
           default_protected_supplier default_west_prefix example_output example_summary 0 4);
    vm_compute; try reflexivity; lia.
Defined.

(** C4 (union semantics): a column is in the clear-set exactly when its
    mapped shop code is in [shop_codes] or its stripped row-0 label is in
    [nicknames]; the clear-set holds each column at most once. *)
Theorem clear_set_union g sc nk :
  (forall c, In c (clear_set g sc nk) <->
     (exists code, In (c, code) (shop_cols_map (hdr g 1)) /\ In code sc) \/
     (c < length (hdr g 0) /\ In (strip (nth c (hdr g 0) "")) nk)) /\
  NoDup (clear_set g sc nk).
Proof. unfold clear_set. apply columns_to_clear_spec. Qed.

(** C5 (West removal): the West columns are those whose stripped row-0
    label starts with [west_prefix]; a successful run keeps exactly the
    other columns, in order, in every row, so the output is narrower by
    the number of West columns; the West columns do not depend on the
    lookup sets, and with both sets empty the output is the input without
    its West columns. *)
Theorem west_columns_removed g sc nk ps wp out s :
  transform_order g sc nk ps wp = Ok (out, s) ->
  (forall c, In c (west_columns g wp) <->
     c < width g /\ startswith (strip (to_str (at_rc g 0 c))) wp = true) /\
  (forall c, In c (kept_columns g wp) <-> c < width g /\ ~ In c (west_columns g wp)) /\
  NoDup (west_columns g wp) /\
  length (kept_columns g wp) = width g - length (west_columns g wp) /\
  length out = length g /\ rect (length (kept_columns g wp)) out /\
  (exists cs, supplier_column g = Some cs /\
     forall r j, r < length g -> j < length (kept_columns g wp) ->
       at_rc out r j = new_cell g sc nk ps cs r (nth j (kept_columns g wp) 0)) /\
  (sc = [] -> nk = [] ->
     forall r j, r < length g -> j < length (kept_columns g wp) ->
       at_rc out r j = at_rc g r (nth j (kept_columns g wp) 0)).
Proof.
  intros H. destruct (transform_order_Ok g sc nk ps wp out s H) as (cs & Hs & Hg & Lo & Ro & Eo).
  split; [intros c; apply In_west_columns; lia|].
  split; [apply In_kept_columns|].
  split; [unfold west_columns; rewrite west_cols_filter; apply NoDup_filter, seq_NoDup|].
  split; [apply length_kept_columns; lia|].
  split; [exact Lo|]. split; [exact Ro|].
  split; [exists cs; split; [exact Hs | exact Eo]|].
  intros -> -> r j Hr Hj. rewrite Eo by assumption. unfold new_cell.
  rewrite clear_col_nil, andb_false_r. reflexivity.
Qed.

Lemma west_columns_removed_witness :
  length (kept_columns example_order default_west_prefix) =
  width example_order - length (west_columns example_order default_west_prefix).
Proof.
  exact (proj1 (proj2 (proj2 (proj2 (west_columns_removed example_order example_codes
           example_nicknames default_protected_supplier default_west_prefix
           example_output example_summary ltac:(vm_compute; reflexivity)))))).
Defined.

(** C6 (row-index invariant): a successful run keeps the number of rows;
    rows 0, 1 and 2 keep the cells of every surviving column; any other
    cell either keeps its value or, in a data row, becomes the text [""]. *)
Theorem header_rows_not_cleared g sc nk ps wp out s :
  transform_order g sc nk ps wp = Ok (out, s) ->
  length out = length g /\ rect (length (kept_columns g wp)) out /\
  (forall r j, r < data_start -> r < length g -> j < length (kept_columns g wp) ->
     at_rc out r j = at_rc g r (nth j (kept_columns g wp) 0)) /\
  (forall r j, r < length g -> j < length (kept_columns g wp) ->
     at_rc out r j = at_rc g r (nth j (kept_columns g wp) 0) \/
     (data_start <= r /\ at_rc out r j = Str "")).
Proof.
  intros H. destruct (transform_order_Ok g sc nk ps wp out s H) as (cs & Hs & Hg & Lo & Ro & Eo).
  split; [exact Lo|]. split; [exact Ro|]. split.
  - intros r j H3 Hr Hj. rewrite Eo by assumption. unfold new_cell.
    replace (data_start <=? r) with false by (symmetry; apply Nat.leb_gt; exact H3).
    reflexivity.
  - intros r j Hr Hj. rewrite Eo by assumption. unfold new_cell.
    destruct (data_start <=? r) eqn:E3; simpl; [|left; reflexivity].
    apply Nat.leb_le in E3.
    destruct (_ && _); [right; split; [exact E3 | reflexivity] | left; reflexivity].
Qed.

Lemma header_rows_not_cleared_witness :
  at_rc example_output 1 1 = at_rc example_order 1 1.
Proof.
  exact (proj1 (proj2 (proj2 (header_rows_not_cleared example_order example_codes
           example_nicknames default_protected_supplier default_west_prefix
           example_output example_summary ltac:(vm_compute; reflexivity)))) 1 1
           ltac:(unfold data_start; lia) ltac:(simpl; lia) ltac:(vm_compute; lia)).
Defined.

(** C2 (shop-code map): the pattern [r"#(\\d+)#"] asks for a backslash
    after the first [#], so the address cell ["#037# and also #099#"] gives
    no match and its column gets no shop code (the spec expects [037]);
    only text such as ["#\ddd#"] is matched. *)
Theorem shop_code_token_not_matched :
  code_search "#037# and also #099#" = None /\
  shop_cols_map ["#037# and also #099#"] = [] /\
  shop_cols_map (hdr example_order 1) = [] /\
  clear_set example_order ["003"] [] = [] /\
  code_search "#\ddd#" = Some "\ddd".
Proof. vm_compute. repeat split. Qed.

(** C3 (template normalisation): the pattern [r"\\.0$"] asks for a
    backslash before the [.0], so the cell ["465.0"] stays ["465.0"] in
    [shop_codes] instead of becoming ["465"]. *)
Theorem float_code_not_normalized :
  sub_dot0 "465.0" = "465.0" /\
  load_template float_code_template = Ok (["465.0"; "003"], []).
Proof. vm_compute. split; reflexivity. Qed.

(** C7 (missing cells), under pandas 2.x: [astype(str)] runs before
    [fillna("")], so a missing row-0 cell reads ["nan"], not [""]: with
    [west_prefix = "n"] its column is dropped as a West column, whereas
    [""] does not start with ["n"]. *)
Theorem missing_header_read_as_nan :
  hdr missing_header_order 0 = [supplier_label; "nan"; "ვაკე"] /\
  startswith (strip "") "n" = false /\
  west_columns missing_header_order "n" = [1] /\
  transform_order missing_header_order [] [] default_protected_supplier "n" =
  Ok ([[Str supplier_label; Str "ვაკე"]; [NaN; NaN]; [NaN; NaN]; [Str "other"; Num "3"]],
      {| columns_to_clear_count := 0;
         west_columns_dropped := 1;
         rows_eligible_by_supplier_rule := 1;
         cleared_cells_estimate := 0;
         summary_protected_supplier := default_protected_supplier |}).
Proof. vm_compute. repeat split. Qed.

(** C8, as stated, fails on a sheet with a single row: no column carries
    the supplier label, but the run stops at [raw.iloc[1]] with an index
    error, not with the structure error. *)
Lemma one_row_index_error :
  (forall c, c < width [[Str "x"]] ->
     strip (to_str (at_rc [[Str "x"]] 0 c)) <> supplier_label) /\
  transform_order [[Str "x"]] [] [] default_protected_supplier default_west_prefix
    = Err IndexError.
Proof.
  split; [|reflexivity].
  intros c Hc. simpl in Hc. destruct c as [|c]; [|lia]. vm_compute. discriminate.
Qed.

(** C8 (supplier column), as amended: a sheet with fewer than two rows
    fails with the index error, before the supplier search; for sheets with
    the two header rows the code reads, the run fails, and only with the
    structure error, exactly when no row-0 cell strips to the supplier
    label, and a successful run uses the leftmost such column for the
    protection rule. *)
Theorem supplier_column_failure g sc nk ps wp :
  (length g < 2 -> transform_order g sc nk ps wp = Err IndexError) /\
  (2 <= length g ->
  (transform_order g sc nk ps wp = Err StructureError <->
     forall c, c < width g -> strip (to_str (at_rc g 0 c)) <> supplier_label) /\
  (forall e, transform_order g sc nk ps wp = Err e -> e = StructureError) /\
  (forall out s, transform_order g sc nk ps wp = Ok (out, s) ->
     exists cs, supplier_column g = Some cs /\ cs < width g /\
       strip (to_str (at_rc g 0 cs)) = supplier_label /\
       (forall k, k < cs -> strip (to_str (at_rc g 0 k)) <> supplier_label) /\
       forall r j, r < length g -> j < length (kept_columns g wp) ->
         at_rc out r j = new_cell g sc nk ps cs r (nth j (kept_columns g wp) 0))).
Proof.
  split; [intros Hg; apply transform_order_Err; left; split; [exact Hg | reflexivity]|].
  intros Hg. split; [|split].
  - rewrite transform_order_Err. unfold supplier_column. rewrite find_col_None.
    rewrite length_hdr by lia. split.
    + intros [[H _]|(_ & H & _)]; [lia|]. intros c Hc. rewrite <- nth_hdr by lia. apply H, Hc.
    + intros H. right. split; [exact Hg|]. split; [|reflexivity].
      intros c Hc. rewrite nth_hdr by lia. apply H, Hc.
  - intros e He. apply transform_order_Err in He as [[H _]|(_ & _ & ->)]; [lia | reflexivity].
  - intros out s H. destruct (transform_order_Ok g sc nk ps wp out s H)
      as (cs & Hs & _ & _ & _ & Eo).
    exists cs. split; [exact Hs|].
    unfold supplier_column in Hs. apply find_col_Some in Hs as (Hc & Hl & Hmin).
    rewrite length_hdr in Hc by lia.
    split; [exact Hc|]. split; [rewrite <- nth_hdr by lia; exact Hl|].
    split; [|exact Eo]. intros k Hk. rewrite <- nth_hdr by lia. apply Hmin, Hk.
Qed.

Lemma supplier_column_failure_witness :
  transform_order [[Str "x"]; [NaN]] [] [] default_protected_supplier default_west_prefix
    = Err StructureError /\
  transform_order [[Str supplier_label]] [] [] default_protected_supplier default_west_prefix
    = Err IndexError.
Proof.
  split.
  - apply (proj2 (proj1 (proj2 (supplier_column_failure [[Str "x"]; [NaN]] [] []
                           default_protected_supplier default_west_prefix)
                           ltac:(simpl; lia)))).
    intros c Hc. simpl in Hc. destruct c as [|c]; [|lia]. vm_compute. discriminate.
  - apply (proj1 (supplier_column_failure [[Str supplier_label]] [] []
                    default_protected_supplier default_west_prefix)).
    simpl. lia.
Defined.

Lemma lookup_col_app (t1 t2 : table) name :
  lookup_col (t1 ++ t2)%list name =
  match lookup_col t1 name with Some v => Some v | None => lookup_col t2 name end.
Proof.
  induction t1 as [|[n vs] t1 IH]; simpl; [reflexivity|].
  destruct (String.eqb n name); [reflexivity | exact IH].
Qed.

Lemma filter_nonempty_blank n : filter nonempty (map strip (repeat "" n)) = [].
Proof. induction n as [|n IH]; simpl; [reflexivity | exact IH]. Qed.

(** C9 (loader errors): the loader fails, and only with the configuration
    error, exactly when the table has no [shop_code] column; without a
    [shop_nickname_optional] column it succeeds with no nicknames, with the
    same result as with that column present and blank. *)
Theorem load_template_errors t :
  (load_template t = Err ConfigError <-> lookup_col t "shop_code" = None) /\
  (forall e, load_template t = Err e -> e = ConfigError) /\
  (lookup_col t "shop_nickname_optional" = None ->
   forall codes, lookup_col t "shop_code" = Some codes ->
     (exists cs, load_template t = Ok (cs, [])) /\
     load_template t =
     load_template (t ++ [("shop_nickname_optional", repeat "" (length codes))])%list).
Proof.
  unfold load_template. split; [|split].
  - destruct (lookup_col t "shop_code"); split; congruence.
  - intros e. destruct (lookup_col t "shop_code"); congruence.
  - intros Hn codes Hc. rewrite Hn, Hc, !lookup_col_app, Hn, Hc. simpl.
    rewrite filter_nonempty_blank. split; [eexists; reflexivity | reflexivity].
Qed.

Lemma load_template_errors_witness :
  load_template code_only_template = Ok (["003"; "465"], []) /\
  load_template code_only_template =
  load_template (code_only_template ++ [("shop_nickname_optional", repeat "" 3)])%list.
Proof.
  split; [vm_compute; reflexivity|].
  exact (proj2 (proj2 (proj2 (load_template_errors code_only_template)) eq_refl
                  ["003"; " 465 "; ""] eq_refl)).
Defined.

(** C10, as stated, fails when [west_prefix] is a prefix of the supplier
    label (here the empty prefix): the first run drops every column, the
    supplier column with them, and the second run stops with the
    structure error. *)
Lemma retransform_drops_supplier :
  exists s,
    transform_order [[Str supplier_label]; [NaN]] [] [] default_protected_supplier ""
      = Ok ([[]; []], s) /\
    transform_order [[]; []] [] [] default_protected_supplier "" = Err StructureError.
Proof. eexists. split; vm_compute; reflexivity. Qed.

(** C10 (re-clearing), as amended.  When [west_prefix] is not a prefix of
    the supplier label, running the transform again, with the same
    arguments, on the frame a successful run produced succeeds and returns
    that frame unchanged (no column dropped, no cell changed).  When it is
    a prefix, the first run drops the supplier column (every column headed
    by the supplier label is a West column), the output has no supplier
    column, and the second run stops with the structure error. *)
Theorem retransform_idempotent g sc nk ps wp out s :
  transform_order g sc nk ps wp = Ok (out, s) ->
  (startswith supplier_label wp = false ->
   exists s', transform_order out sc nk ps wp = Ok (out, s')) /\
  (startswith supplier_label wp = true ->
   (forall cs, supplier_column g = Some cs -> ~ In cs (kept_columns g wp)) /\
   supplier_column out = None /\
   transform_order out sc nk ps wp = Err StructureError).
Proof.
  intros H. split; cycle 1.
  { intros Hwp. destruct (rerun_no_supplier g sc nk ps wp out s H Hwp) as [Hw Hn].
    destruct (transform_order_Ok g sc nk ps wp out s H) as (_ & _ & Hg & Lo & _).
    split; [|split; [exact Hn|]].
    - intros cs Hs Hk. apply In_kept_columns in Hk as [_ Hk]. exact (Hk (Hw cs Hs)).
    - apply transform_order_Err. right. split; [lia|]. split; [exact Hn | reflexivity]. }
  intros Hwp.
  destruct (transform_order_Ok g sc nk ps wp out s H) as (cs & Hs & Hg & Lo & Ro & Eo).
  destruct (rerun_supplier g sc nk ps wp out s cs H Hs Hwp) as (js & Hjs & Hjlt & Ejs).
  destruct (transform_order_exists out sc nk ps wp js ltac:(lia) Hjs) as (out' & s' & H').
  exists s'. rewrite H'. do 2 f_equal.
  destruct (transform_order_Ok out sc nk ps wp out' s' H') as (js' & Hjs' & _ & Lo' & Ro' & Eo').
  rewrite Hjs in Hjs'. inversion Hjs'; subst js'.
  set (k := length (kept_columns g wp)) in *.
  assert (Wo : width out = k) by (apply rect_width; [exact Ro | intros ->; simpl in Lo; lia]).
  assert (Kout : kept_columns out wp = seq 0 k).
  { unfold kept_columns. rewrite (rerun_west g sc nk ps wp out s H), Wo. apply filter_true. }
  rewrite Kout, length_seq in Ro', Eo'.
  apply (rect_ext k); [exact Ro' | exact Ro | congruence |].
  intros r j Hr Hj. rewrite Lo' in Hr. rewrite Eo' by lia. rewrite seq_nth by exact Hj.
  simpl. unfold new_cell at 1.
  rewrite (rerun_clear_col g sc nk ps wp out s j H Hj).
  rewrite (Eo r js) by lia. rewrite (Eo r j) by lia. rewrite Ejs.
  unfold new_cell.
  destruct (data_start <=? r); simpl; [|reflexivity].
  destruct (clear_col sc nk (hdr g 0) (hdr g 1) (nth j (kept_columns g wp) 0)); simpl;
    [|reflexivity].
  destruct (String.eqb (strip (to_str (at_rc g r cs))) ps) eqn:P; simpl.
  - rewrite andb_false_r. rewrite P. reflexivity.
  - rewrite andb_true_r. destruct (clear_col sc nk (hdr g 0) (hdr g 1) cs); simpl.
    + destruct (negb _); reflexivity.
    + rewrite P. reflexivity.
Qed.

Lemma retransform_idempotent_witness :
  transform_order example_output example_codes example_nicknames
    default_protected_supplier default_west_prefix <> Err StructureError /\
  transform_order [[]; []] [] [] default_protected_supplier "" = Err StructureError.
Proof.
  split.
  - destruct (proj1 (retransform_idempotent example_order example_codes example_nicknames
                default_protected_supplier default_west_prefix example_output example_summary
                ltac:(vm_compute; reflexivity)) ltac:(vm_compute; reflexivity)) as (s' & E).
    rewrite E. discriminate.
  - destruct (transform_order [[Str supplier_label]; [NaN]] [] [] default_protected_supplier "")
      as [[out s]|e] eqn:E; [|vm_compute in E; discriminate].
    assert (Hout : out = [[]; []]) by (vm_compute in E; congruence). subst out.
    exact (proj2 (proj2 (proj2 (retransform_idempotent _ _ _ _ _ _ _ E) eq_refl))).
Defined.

(** * Further properties of the code *)

(** ** The summary *)

Lemma transform_order_summary g sc nk ps wp out s :
  transform_order g sc nk ps wp = Ok (out, s) ->
  exists cs, supplier_column g = Some cs /\
    columns_to_clear_count s = length (clear_set g sc nk) /\
    west_columns_dropped s = length (west_columns g wp) /\
    rows_eligible_by_supplier_rule s = length (rows_to_edit ps (suppliers (parse g) cs)) /\
    cleared_cells_estimate s =
      snd (clear_loop (rows_to_edit ps (suppliers (parse g) cs)) (clear_set g sc nk) (parse g)) /\
    summary_protected_supplier s = ps.
Proof.
  intros H. unfold transform_order in H.
  destruct (parse g) as [|row0 [|row1 rest]] eqn:P; try discriminate.
  assert (H0 : row_str row0 = hdr g 0) by (unfold hdr; rewrite P; reflexivity).
  assert (H1 : row_str row1 = hdr g 1) by (unfold hdr; rewrite P; reflexivity).
  rewrite H0, H1, <- P in H. fold (supplier_column g) in H.
  destruct (supplier_column g) as [cs|]; [|discriminate].
  fold (clear_set g sc nk) (west_columns g wp) in H.
  destruct (clear_loop _ _ _) as [out1 cnt] eqn:CL. inversion H; subst.
  exists cs. rewrite <- P, CL. repeat split.
Qed.

Lemma rows_to_edit_eq g ps cs :
  rows_to_edit ps (suppliers (parse g) cs) = filter (eligible_row g ps cs) (seq 0 (length g)).
Proof.
  set (L := map (fun row => to_str (cell_at row cs)) (parse g)).
  assert (HL : length L = length g) by (unfold L; rewrite length_map; apply length_parse).
  assert (Hs : suppliers (parse g) cs = combine (seq data_start (length (skipn data_start L)))
                                                (skipn data_start L)).
  { unfold suppliers, enumerate. fold L. rewrite skipn_combine, skipn_seq, length_skipn.
    reflexivity. }
  unfold rows_to_edit. rewrite Hs, filter_enum_fst with (d := ""), length_skipn, HL.
  unfold data_start.
  assert (E : forall i, 3 <= i < length g ->
            negb (String.eqb (strip (nth (i - 3) (skipn 3 L) "")) ps) = eligible_row g ps cs i).
  { intros i Hi. rewrite nth_skipn. replace (3 + (i - 3)) with i by lia.
    unfold L. rewrite nth_map_lt with (d' := []) by (rewrite length_parse; lia).
    change (cell_at (nth i (parse g) []) cs) with (at_rc (parse g) i cs).
    rewrite at_rc_parse. unfold eligible_row, data_start.
    replace (3 <=? i) with true by (symmetry; apply Nat.leb_le; lia). reflexivity. }
  destruct (Nat.le_gt_cases 3 (length g)) as [H3|H3].
  - replace (length g) with (3 + (length g - 3)) at 2 by lia.
    rewrite seq_app, filter_app.
    rewrite (filter_all_false (eligible_row g ps cs) (seq 0 3))
      by (intros x Hx; apply in_seq in Hx; unfold eligible_row, data_start;
          replace (3 <=? x) with false by (symmetry; apply Nat.leb_gt; lia); reflexivity).
    simpl. apply filter_ext_in. intros i Hi. apply in_seq in Hi. apply E. lia.
  - replace (length g - 3) with 0 by lia. simpl. symmetry. apply filter_all_false.
    intros x Hx. apply in_seq in Hx. unfold eligible_row, data_start.
    replace (3 <=? x) with false by (symmetry; apply Nat.leb_gt; lia). reflexivity.
Qed.

Lemma count_notna_eq rows c out :
  count_notna rows c out =
  length (filter (fun r => mem_nat r rows && notna (at_rc out r c)) (seq 0 (length out))).
Proof.
  unfold count_notna, enumerate.
  rewrite <- (length_map fst), filter_enum_fst with (d := []).
  f_equal. apply filter_ext. intros i. rewrite Nat.sub_0_r. reflexivity.
Qed.

Lemma count_notna_set_col rows c c' n out :
  rect n out -> c' < n -> c <> c' ->
  count_notna rows c (set_col_rows rows c' out) = count_notna rows c out.
Proof.
  intros H Hc' Hne. rewrite !count_notna_eq.
  rewrite (proj2 (set_col_rows_shape rows c' n out H)).
  f_equal. apply filter_ext_in. intros r Hr. apply in_seq in Hr.
  rewrite at_set_col_rows with (n := n) by (assumption || lia).
  replace (c =? c') with false by (symmetry; apply Nat.eqb_neq; exact Hne).
  rewrite andb_false_r. reflexivity.
Qed.

Lemma snd_clear_loop rows cols n out :
  rect n out -> Forall (fun c => c < n) cols -> NoDup cols ->
  snd (clear_loop rows cols out) = list_sum (map (fun c => count_notna rows c out) cols).
Proof.
  intros H Hc Hnd. unfold clear_loop.
  enough (G : forall k, snd (fold_left (fun '(out, n) c =>
                 (set_col_rows rows c out, n + count_notna rows c out)) cols (out, k))
              = k + list_sum (map (fun c => count_notna rows c out) cols)) by apply G.
  revert out H. induction cols as [|c cols IH]; intros out H k; simpl; [lia|].
  inversion Hc as [|? ? Hc0 Hcs]; subst. inversion Hnd as [|? ? Hnin Hnd']; subst.
  rewrite IH by (try apply (set_col_rows_shape rows c n out H); assumption).
  rewrite (map_ext_in (fun c0 => count_notna rows c0 (set_col_rows rows c out))
                      (fun c0 => count_notna rows c0 out)).
  - lia.
  - intros c0 Hin. apply (count_notna_set_col rows c0 c n); [exact H | exact Hc0 |].
    intros ->. contradiction.
Qed.

Lemma length_filter_andb {A} (f h : A -> bool) l :
  length (filter (fun x => f x && h x) l) <= length (filter f l).
Proof.
  induction l as [|a l IH]; simpl; [lia|].
  destruct (f a), (h a); simpl; lia.
Qed.

Lemma list_sum_le_mul {A} (F : A -> nat) M l :
  (forall x, In x l -> F x <= M) -> list_sum (map F l) <= length l * M.
Proof.
  induction l as [|a l IH]; intros H; simpl; [lia|].
  specialize (H a (or_introl eq_refl)) as Ha.
  assert (IH' := IH (fun x Hx => H x (or_intror Hx))). lia.
Qed.

Lemma clear_set_bound g sc nk :
  1 <= length g -> Forall (fun c => c < width g) (clear_set g sc nk).
Proof.
  intros Hg. apply Forall_forall. intros c Hc. unfold clear_set in Hc.
  rewrite (proj1 (columns_to_clear_spec _ _ _ _)) in Hc.
  destruct Hc as [(code & Hm & _)|(Hc & _)].
  - apply In_shop_cols_map in Hm as [Hm _].
    destruct (Nat.lt_ge_cases 1 (length g)).
    + rewrite length_hdr in Hm by lia. exact Hm.
    + unfold hdr in Hm. rewrite nth_overflow in Hm by (rewrite length_parse; lia).
      simpl in Hm. lia.
  - rewrite length_hdr in Hc by lia. exact Hc.
Qed.

(** The column and row counts of the summary: [columns_to_clear_count] is
    the number of distinct selected columns (at most the frame width);
    [west_columns_dropped] plus the output width is the input width;
    [rows_eligible_by_supplier_rule] counts the eligible data rows. *)
Theorem summary_counts g sc nk ps wp out s :
  transform_order g sc nk ps wp = Ok (out, s) ->
  exists cs, supplier_column g = Some cs /\
    columns_to_clear_count s = length (clear_set g sc nk) /\
    columns_to_clear_count s <= width g /\
    west_columns_dropped s + length (kept_columns g wp) = width g /\
    Forall (fun row => length row = length (kept_columns g wp)) out /\
    rows_eligible_by_supplier_rule s = length (filter (eligible_row g ps cs) (seq 0 (length g))).
Proof.
  intros H.
  destruct (transform_order_Ok g sc nk ps wp out s H) as (cs0 & _ & Hg & _ & Ro & _).
  destruct (transform_order_summary g sc nk ps wp out s H) as (cs & Hs & C1 & W1 & R1 & _).
  exists cs. split; [exact Hs|]. split; [exact C1|]. split.
  - rewrite C1. rewrite <- (length_seq (width g) 0). apply NoDup_incl_length.
    + apply (proj2 (columns_to_clear_spec sc nk (hdr g 0) (hdr g 1))).
    + intros c Hc. apply in_seq. pose proof (clear_set_bound g sc nk ltac:(lia)) as B.
      rewrite Forall_forall in B. specialize (B c Hc). lia.
  - split; [|split; [exact Ro | rewrite R1; apply f_equal, rows_to_edit_eq]].
    rewrite W1, length_kept_columns by lia.
    assert (L : length (west_columns g wp) <= width g).
    { unfold west_columns. rewrite west_cols_filter, length_hdr by lia.
      rewrite <- (length_seq (width g) 0) at 2. apply filter_length_le. }
    lia.
Qed.

Lemma summary_counts_witness :
  columns_to_clear_count example_summary <= width example_order.
Proof.
  destruct (summary_counts example_order example_codes example_nicknames
              default_protected_supplier default_west_prefix example_output example_summary
              ltac:(vm_compute; reflexivity)) as (cs & _ & _ & B & _).
  exact B.
Defined.

(** [cleared_cells_estimate] is, over the selected columns, the number of
    eligible rows whose cell held a value (not NaN) in the input, counted
    also when that value was already [""]; so it is at most
    [columns_to_clear_count * rows_eligible_by_supplier_rule]. *)
Theorem cleared_cells_estimate_spec g sc nk ps wp out s :
  transform_order g sc nk ps wp = Ok (out, s) ->
  exists cs, supplier_column g = Some cs /\
    cleared_cells_estimate s =
      list_sum (map (fun c => length (filter (fun r => eligible_row g ps cs r
                                                       && notna (at_rc g r c))
                                             (seq 0 (length g))))
                    (clear_set g sc nk)) /\
    cleared_cells_estimate s <=
      columns_to_clear_count s * rows_eligible_by_supplier_rule s.
Proof.
  intros H.
  destruct (transform_order_Ok g sc nk ps wp out s H) as (cs0 & _ & Hg & _).
  destruct (transform_order_summary g sc nk ps wp out s H) as (cs & Hs & C1 & _ & R1 & E1 & _).
  assert (F : cleared_cells_estimate s =
      list_sum (map (fun c => length (filter (fun r => eligible_row g ps cs r
                                                       && notna (at_rc g r c))
                                             (seq 0 (length g))))
                    (clear_set g sc nk))).
  { rewrite E1. rewrite (snd_clear_loop _ _ (width g)).
    - f_equal. apply map_ext. intros c. rewrite count_notna_eq, length_parse. f_equal.
      apply filter_ext_in. intros r Hr. apply in_seq in Hr.
      rewrite mem_rows_to_edit by lia. rewrite at_rc_parse. reflexivity.
    - apply rect_parse.
    - apply clear_set_bound. lia.
    - apply (proj2 (columns_to_clear_spec sc nk (hdr g 0) (hdr g 1))). }
  exists cs. split; [exact Hs|]. split; [exact F|].
  rewrite F, C1, R1, rows_to_edit_eq. apply list_sum_le_mul.
  intros c _. apply length_filter_andb.
Qed.

Lemma cleared_cells_estimate_spec_witness :
  cleared_cells_estimate example_summary <=
  columns_to_clear_count example_summary * rows_eligible_by_supplier_rule example_summary.
Proof.
  destruct (cleared_cells_estimate_spec example_order example_codes example_nicknames
              default_protected_supplier default_west_prefix example_output example_summary
              ltac:(vm_compute; reflexivity)) as (cs & _ & _ & B).
  exact B.
Defined.

(** ** The output frame, cell by cell *)

(** The output has the input's rows and the kept columns, and each of its
    cells is [""] when the row is an eligible data row and the column is
    selected, and the input cell otherwise. *)
Theorem output_cells g sc nk ps wp out s :
  transform_order g sc nk ps wp = Ok (out, s) ->
  exists cs, supplier_column g = Some cs /\
    length out = length g /\ rect (length (kept_columns g wp)) out /\
    forall r j, r < length g -> j < length (kept_columns g wp) ->
      at_rc out r j =
        if eligible_row g ps cs r && mem_nat (nth j (kept_columns g wp) 0) (clear_set g sc nk)
        then Str "" else at_rc g r (nth j (kept_columns g wp) 0).
Proof.
  intros H.
  destruct (transform_order_Ok g sc nk ps wp out s H) as (cs & Hs & Hg & Hl & Hr & Hc).
  exists cs. split; [exact Hs|]. split; [exact Hl|]. split; [exact Hr|].
  intros r j Hr' Hj. rewrite Hc by assumption. unfold new_cell, eligible_row.
  rewrite mem_clear_set by (try apply kept_lt; assumption).
  destruct (data_start <=? r), (clear_col _ _ _ _ _), (negb _); reflexivity.
Qed.

Lemma output_cells_witness :
  at_rc example_output 3 2 = Str "" /\ at_rc example_output 3 1 = at_rc example_order 3 1.
Proof.
  destruct (output_cells example_order example_codes example_nicknames
              default_protected_supplier default_west_prefix example_output example_summary
              ltac:(vm_compute; reflexivity)) as (cs & Hs & _ & _ & Hc).
  vm_compute in Hs. injection Hs as <-.
  split; rewrite Hc by (vm_compute; lia); vm_compute; reflexivity.
Defined.

(** ** What the shop-code pattern can match *)

Lemma code_match_at_shape l gr :
  code_match_at l = Some gr -> exists k, 1 <= k /\ gr = ch_bs :: repeat ch_d k.
Proof.
  destruct l as [|h [|b rest]]; simpl; try discriminate.
  destruct (Ascii.eqb h ch_hash && Ascii.eqb b ch_bs) eqn:E; [|discriminate].
  apply andb_true_iff in E as [_ E]. apply Ascii.eqb_eq in E. subst b.
  destruct (span_d rest) as [[|k] [|h' after]]; try discriminate.
  destruct (Ascii.eqb h' ch_hash); [|discriminate].
  intros Hg. injection Hg as <-. exists (S k). split; [lia | reflexivity].
Qed.

Lemma code_search_list_shape l gr :
  code_search_list l = Some gr -> exists k, 1 <= k /\ gr = ch_bs :: repeat ch_d k.
Proof.
  induction l as [|a l IH]; intros Hg; [discriminate|].
  cbn [code_search_list] in Hg. destruct (code_match_at (a :: l)) eqn:E.
  - injection Hg as <-. exact (code_match_at_shape _ _ E).
  - exact (IH Hg).
Qed.

(** The group the shop-code pattern [#(\\d+)#] returns is always a
    backslash followed by one or more letters [d]: it is never a string of
    digits. *)
Theorem code_search_shape s code :
  code_search s = Some code ->
  exists k, 1 <= k /\ code = String ch_bs (string_of_list_ascii (repeat ch_d k)).
Proof.
  unfold code_search. destruct (code_search_list (list_ascii_of_string s)) as [gr|] eqn:E;
    simpl; [|discriminate].
  intros Hc. injection Hc as <-.
  destruct (code_search_list_shape _ _ E) as (k & Hk & ->). exists k. auto.
Qed.

Lemma code_search_shape_witness :
  code_search "#\d#" = Some (String ch_bs "d").
Proof.
  destruct (code_search_shape "#\d#" (String ch_bs "d") ltac:(vm_compute; reflexivity))
    as (k & _ & _).
  vm_compute. reflexivity.
Defined.

(** Hence when no shop code of the template starts with a backslash (digit
    codes such as ["003"] in particular), the shop codes select no column:
    the columns to clear are exactly those whose stripped nickname is in the
    template's nicknames. *)
Theorem clear_set_nicknames_only g sc nk :
  (forall code, In code sc -> String.get 0 code <> Some ch_bs) ->
  forall c, In c (clear_set g sc nk) <->
            c < length (hdr g 0) /\ In (strip (nth c (hdr g 0) "")) nk.
Proof.
  intros Hsc c. unfold clear_set. rewrite (proj1 (columns_to_clear_spec _ _ _ _)).
  split; [|intros H; right; exact H].
  intros [(code & Hm & Hin)|H]; [|exact H].
  apply In_shop_cols_map in Hm as [_ Hf].
  destruct (code_search_shape _ _ Hf) as (k & _ & ->).
  exfalso. exact (Hsc _ Hin eq_refl).
Qed.

Lemma clear_set_nicknames_only_witness :
  In 2 (clear_set example_order example_codes example_nicknames) /\
  ~ In 1 (clear_set example_order example_codes example_nicknames).
Proof.
  assert (Hsc : forall code, In code example_codes -> String.get 0 code <> Some ch_bs)
    by (intros code [<-|[]]; vm_compute; discriminate).
  split.
  - apply (proj2 (clear_set_nicknames_only example_order example_codes example_nicknames
                    Hsc 2)).
    vm_compute. split; [lia | auto].
  - intros H. apply (proj1 (clear_set_nicknames_only example_order example_codes
                              example_nicknames Hsc 1)) in H.
    vm_compute in H. destruct H as [_ [H|[]]]. discriminate.
Defined.

(** ** The template loader *)

Lemma last_char_rev_app f r cs rest :
  last_char_rev f r = Some (cs, rest) -> r = (cs ++ rest)%list.
Proof.
  revert r cs rest. induction f as [|f IH]; intros r cs rest; [discriminate|].
  destruct r as [|a r']; [discriminate|]. cbn [last_char_rev].
  destruct (is_cont a).
  - destruct (last_char_rev f r') as [[cs' rest']|] eqn:E; [|discriminate].
    intros H. injection H as <- <-. rewrite (IH _ _ _ E). reflexivity.
  - intros H. injection H as <- <-. reflexivity.
Qed.

Lemma dot0_before_bs r p : dot0_before r = Some p -> In ch_bs r.
Proof.
  destruct r as [|z r1]; [discriminate|]. cbn [dot0_before].
  destruct (Ascii.eqb z ch_0); [|discriminate].
  destruct (last_char_rev 4 r1) as [[cs [|b q]]|] eqn:E; try discriminate.
  destruct (Ascii.eqb b ch_bs) eqn:B; [|rewrite andb_false_r; discriminate].
  intros _. apply Ascii.eqb_eq in B. subst b. right.
  rewrite (last_char_rev_app _ _ _ _ E). apply in_or_app. right. left. reflexivity.
Qed.

Lemma sub_dot0_no_bs_byte s :
  ~ In ch_bs (list_ascii_of_string s) -> sub_dot0 s = s.
Proof.
  intros Hs. unfold sub_dot0, sub_dot0_list.
  destruct (dot0_before (rev (list_ascii_of_string s))) as [p|] eqn:E.
  { exfalso. apply Hs, in_rev, (dot0_before_bs _ _ E). }
  destruct (rev (list_ascii_of_string s)) as [|n r] eqn:R;
    [apply string_of_list_ascii_of_string|].
  destruct (Ascii.eqb n ch_nl); [|apply string_of_list_ascii_of_string].
  destruct (dot0_before r) as [p|] eqn:E'; [|apply string_of_list_ascii_of_string].
  exfalso. apply Hs, in_rev. rewrite R. right. exact (dot0_before_bs _ _ E').
Qed.

Lemma ascii_of_N_bs n : (n < 256)%N -> ascii_of_N n = ch_bs -> n = 92%N.
Proof. intros Hn E. rewrite <- (N_ascii_embedding n Hn), E. reflexivity. Qed.

(** Byte 92 occurs in the UTF-8 encoding of a code point only when that
    code point is the backslash: every byte of a longer encoding is 128 or
    more. *)
Lemma utf8_encode_bs cp : (cp < 1114112)%N -> In ch_bs (utf8_encode cp) -> cp = 92%N.
Proof.
  intros Hcp. unfold utf8_encode.
  pose proof (N.div_mod cp 64 ltac:(discriminate)).
  pose proof (N.div_mod cp 4096 ltac:(discriminate)).
  pose proof (N.div_mod cp 262144 ltac:(discriminate)).
  pose proof (N.mod_lt cp 64 ltac:(discriminate)).
  pose proof (N.mod_lt cp 4096 ltac:(discriminate)).
  pose proof (N.mod_lt cp 262144 ltac:(discriminate)).
  pose proof (N.mod_lt (cp / 64) 64 ltac:(discriminate)).
  pose proof (N.mod_lt (cp / 4096) 64 ltac:(discriminate)).
  set (a := (cp / 64)%N) in *. set (b := (cp / 4096)%N) in *.
  set (c := (cp / 262144)%N) in *. set (d := (a mod 64)%N) in *.
  set (e := (b mod 64)%N) in *. set (f := (cp mod 64)%N) in *.
  set (h := (cp mod 4096)%N) in *. set (i := (cp mod 262144)%N) in *.
  clearbody a b c d e f h i.
  destruct (N.ltb_spec cp 128); [intros [E|[]]; apply ascii_of_N_bs in E; lia|].
  destruct (N.ltb_spec cp 2048);
    [intros [E|[E|[]]]; apply ascii_of_N_bs in E; lia|].
  destruct (N.ltb_spec cp 65536);
    [intros [E|[E|[E|[]]]]; apply ascii_of_N_bs in E; lia|].
  intros [E|[E|[E|[E|[]]]]]; apply ascii_of_N_bs in E; lia.
Qed.

(** [re.sub(r"\\.0$", "", s)] leaves every string without a backslash
    character as it is; in particular a code read as ["3.0"] keeps its
    [".0"]. *)
Theorem sub_dot0_no_backslash (cps : list N) :
  Forall (fun cp => cp < 1114112 /\ cp <> 92)%N cps ->
  sub_dot0 (utf8_string cps) = utf8_string cps.
Proof.
  intros H. apply sub_dot0_no_bs_byte. unfold utf8_string.
  rewrite list_ascii_of_string_of_list_ascii. intros Hin.
  apply in_flat_map in Hin as (cp & Hcp & Hb). rewrite Forall_forall in H.
  destruct (H cp Hcp) as [Hlt Hne]. exact (Hne (utf8_encode_bs cp Hlt Hb)).
Qed.

Lemma sub_dot0_no_backslash_witness :
  sub_dot0 (utf8_string [51; 46; 48]%N) = utf8_string [51; 46; 48]%N /\
  sub_dot0 (utf8_string [23644; 46; 48]%N) = utf8_string [23644; 46; 48]%N.
Proof.
  split; apply sub_dot0_no_backslash; repeat constructor; lia.
Defined.

Lemma set_add_str_In x s y : In y (set_add_str x s) <-> In y s \/ y = x.
Proof.
  unfold set_add_str. destruct (mem_str x s) eqn:E.
  - apply mem_str_In in E. split; auto. intros H. destruct H as [H|H]; subst; assumption.
  - rewrite in_app_iff. simpl. intuition congruence.
Qed.

Lemma set_add_str_NoDup x s : NoDup s -> NoDup (set_add_str x s).
Proof.
  intros H. unfold set_add_str. destruct (mem_str x s) eqn:E; [exact H|].
  apply NoDup_app; [exact H | constructor; [intros []|constructor] |].
  intros y Hy Hx. destruct Hx as [Hx|[]]. subst y.
  apply mem_str_In in Hy. rewrite Hy in E. discriminate.
Qed.

Lemma fold_set_add_str l : forall acc,
  (forall y, In y (fold_left (fun acc x => set_add_str x acc) l acc) <-> In y acc \/ In y l) /\
  (NoDup acc -> NoDup (fold_left (fun acc x => set_add_str x acc) l acc)).
Proof.
  induction l as [|x l IH]; intros acc; simpl.
  - split; [intros y; tauto | auto].
  - destruct (IH (set_add_str x acc)) as [I N]. split.
    + intros y. rewrite I, set_add_str_In. intuition congruence.
    + intros H. apply N, set_add_str_NoDup, H.
Qed.

Lemma In_to_set l y : In y (to_set l) <-> In y l.
Proof. unfold to_set. rewrite (proj1 (fold_set_add_str l [])). simpl. tauto. Qed.

Lemma NoDup_to_set l : NoDup (to_set l).
Proof. apply (proj2 (fold_set_add_str l [])). constructor. Qed.

Lemma In_filter_nonempty_map (f : string -> string) l x :
  In x (filter nonempty (map f l)) <-> x <> "" /\ exists v, In v l /\ f v = x.
Proof.
  rewrite filter_In, in_map_iff. unfold nonempty. rewrite negb_true_iff, String.eqb_neq.
  split.
  - intros [[v [E H]] N]. eauto.
  - intros [N [v [H E]]]. eauto.
Qed.

(** A template with a [shop_code] column loads into two duplicate-free
    sets: the non-empty values [strip(re.sub(r"\\.0$", "", v))] of the
    [shop_code] cells, and the non-empty stripped cells of the
    [shop_nickname_optional] column (none if that column is missing). *)
Theorem load_template_sets t codes :
  lookup_col t "shop_code" = Some codes ->
  exists sc nk, load_template t = Ok (sc, nk) /\ NoDup sc /\ NoDup nk /\
    (forall x, In x sc <-> x <> "" /\ exists v, In v codes /\ strip (sub_dot0 v) = x) /\
    (forall x, In x nk <-> x <> "" /\ exists ns v, lookup_col t "shop_nickname_optional" = Some ns
                                           /\ In v ns /\ strip v = x).
Proof.
  intros Hc. unfold load_template. rewrite Hc. eexists _, _. split; [reflexivity|].
  split; [apply NoDup_to_set|]. split; [apply NoDup_to_set|]. split.
  - intros x. rewrite In_to_set. apply (In_filter_nonempty_map (fun s => strip (sub_dot0 s))).
  - intros x. rewrite In_to_set, In_filter_nonempty_map.
    destruct (lookup_col t "shop_nickname_optional") as [ns|].
    + split.
      * intros [N (v & A & B)]. split; eauto.
      * intros [N (ns' & v & E & A & B)]. injection E as <-. eauto.
    + split.
      * intros [N (v & A & <-)]. apply repeat_spec in A. subst v.
        exfalso. apply N. reflexivity.
      * intros [N (ns & v & E & _)]. discriminate.
Qed.

Lemma load_template_sets_witness :
  NoDup ["003"; "465"].
Proof.
  destruct (load_template_sets code_only_template ["003"; " 465 "; ""] eq_refl)
    as (sc & nk & E & N & _).
  vm_compute in E. injection E as <- _. exact N.
Defined.

(** ** Locating the supplier column *)

(** [find_col] returns the first index whose stripped header equals the
    name, and [None] exactly when no header does. *)
Theorem find_col_spec hs name :
  (forall j, find_col hs name = Some j <->
     j < length hs /\ strip (nth j hs "") = name /\
     forall k, k < j -> strip (nth k hs "") <> name) /\
  (find_col hs name = None <-> forall k, k < length hs -> strip (nth k hs "") <> name).
Proof. split; [intros j; apply find_col_Some | apply find_col_None]. Qed.

(** ** Selection and rows *)

(** More shop codes or nicknames never select fewer columns. *)
Theorem clear_set_mono g sc nk sc' nk' :
  incl sc sc' -> incl nk nk' -> incl (clear_set g sc nk) (clear_set g sc' nk').
Proof.
  intros Hs Hn c. unfold clear_set. rewrite !(proj1 (columns_to_clear_spec _ _ _ _)).
  intros [(code & Hm & Hin)|(Hc & Hin)]; [left; eauto | right; auto].
Qed.

Lemma clear_set_mono_witness :
  incl (clear_set example_order example_codes [])
       (clear_set example_order example_codes example_nicknames).
Proof.
  apply clear_set_mono; [apply incl_refl | intros x []].
Defined.

(** The data rows (from row 3 on) split into the rows counted by
    [rows_eligible_by_supplier_rule] and the rows whose stripped supplier
    text equals the protected supplier. *)
Theorem summary_rows_partition g sc nk ps wp out s :
  transform_order g sc nk ps wp = Ok (out, s) ->
  exists cs, supplier_column g = Some cs /\
    rows_eligible_by_supplier_rule s +
    length (filter (fun r => String.eqb (strip (to_str (at_rc g r cs))) ps)
                   (seq data_start (length g - data_start)))
    = length g - data_start.
Proof.
  intros H.
  destruct (transform_order_summary g sc nk ps wp out s H) as (cs & Hs & _ & _ & R1 & _).
  exists cs. split; [exact Hs|]. rewrite R1, rows_to_edit_eq.
  assert (E : filter (eligible_row g ps cs) (seq 0 (length g)) =
              filter (fun r => negb (String.eqb (strip (to_str (at_rc g r cs))) ps))
                     (seq data_start (length g - data_start))).
  { unfold eligible_row, data_start. destruct (le_lt_dec (length g) 3) as [L|L].
    - replace (length g - 3) with 0 by lia. apply filter_all_false.
      intros r Hr. apply in_seq in Hr. destruct (Nat.leb_spec 3 r); [lia | reflexivity].
    - replace (length g) with (3 + (length g - 3)) at 1 by lia.
      rewrite seq_app, filter_app. simpl (seq 0 3). cbn [filter Nat.leb andb].
      rewrite app_nil_l. apply filter_ext_in. intros r Hr. apply in_seq in Hr.
      destruct r as [|[|[|r]]]; [lia..|reflexivity]. }
  rewrite E.
  pose proof (filter_length (fun r => String.eqb (strip (to_str (at_rc g r cs))) ps)
                (seq data_start (length g - data_start))) as F.
  rewrite length_seq in F. cbv beta in F. lia.
Qed.

Lemma summary_rows_partition_witness :
  exists cs, supplier_column example_order = Some cs /\
    rows_eligible_by_supplier_rule example_summary +
    length (filter (fun r => String.eqb (strip (to_str (at_rc example_order r cs)))
                                        default_protected_supplier)
                   (seq data_start (length example_order - data_start)))
    = length example_order - data_start.
Proof.
  exact (summary_rows_partition example_order example_codes example_nicknames
           default_protected_supplier default_west_prefix example_output example_summary
           ltac:(vm_compute; reflexivity)).
Defined.

(** ** A run of [main] *)

(** A run that offers a cleaned file had an order file and a template
    from the selected source (the default file when the checkbox is set,
    the upload otherwise) that loaded with at least one shop code or
    nickname, and the cleaned frame and summary are those of
    [transform_order] on them. *)
Theorem main_run_cleaned o u ct ut ps wp out s :
  main_run o u ct ut ps wp = Cleaned out s ->
  exists g tpl sc nk, o = Some g /\ (if u then ct else ut) = Some tpl /\
    load_template tpl = Ok (sc, nk) /\ (sc <> [] \/ nk <> []) /\
    transform_order g sc nk ps wp = Ok (out, s).
Proof.
  unfold main_run. destruct o as [g|]; [|discriminate].
  assert (L : forall tpl, load_template_from_bytes tpl = load_template_from_file (Some tpl))
    by reflexivity.
  destruct u; [|destruct ut as [tpl|]; [rewrite L|discriminate]];
  [destruct ct as [tpl|]; [|discriminate]|];
  cbn [load_template_from_file]; destruct (load_template tpl) as [[sc nk]|e] eqn:Ht;
  try discriminate;
  (destruct (is_empty sc && is_empty nk) eqn:Em; [discriminate|]);
  (destruct (transform_order g sc nk ps wp) as [[o' s']|e] eqn:Tr; [|discriminate]);
  intros C; injection C as <- <-; exists g, tpl, sc, nk;
  (split; [reflexivity|]); (split; [reflexivity|]); (split; [exact Ht|]);
  (split; [|exact Tr]);
  (destruct sc; [destruct nk; [discriminate | right; discriminate] | left; discriminate]).
Qed.

Lemma main_run_cleaned_witness :
  transform_order example_order example_codes example_nicknames
    default_protected_supplier default_west_prefix = Ok (example_output, example_summary).
Proof.
  destruct (main_run_cleaned (Some example_order) false None
              (Some [("shop_code", ["003"]); ("shop_nickname_optional", ["ვანთა"])])
              default_protected_supplier default_west_prefix example_output example_summary
              ltac:(vm_compute; reflexivity))
    as (g & tpl & sc & nk & Eg & Et & El & _ & Tr).
  injection Eg as <-. injection Et as <-. vm_compute in El. injection El as <- <-.
  exact Tr.
Defined.

(** The template is checked before the order is read: whatever the order
    sheet (even one [transform_order] would fail on), a missing default
    template file stops the run with [FileNotFoundError], a selected
    template without a [shop_code] column with the configuration error, and
    one that loads to two empty sets with the nothing-to-clear warning. *)
Theorem main_run_template_first g u ct ut ps wp :
  (u = true -> ct = None -> main_run (Some g) u ct ut ps wp = Failed FileNotFoundError) /\
  forall tpl, (if u then ct else ut) = Some tpl ->
    (lookup_col tpl "shop_code" = None ->
       main_run (Some g) u ct ut ps wp = Failed (Raised ConfigError)) /\
    (load_template tpl = Ok ([], []) -> main_run (Some g) u ct ut ps wp = NothingToClear).
Proof.
  split; [intros -> ->; reflexivity|].
  intros tpl Ht. unfold main_run.
  assert (L : (if u then Some (load_template_from_file ct)
               else match ut with None => None
                    | Some tpl => Some (load_template_from_bytes tpl) end)
              = Some (load_template_from_file (Some tpl))).
  { destruct u; subst; reflexivity. }
  rewrite L. cbn [load_template_from_file]. split.
  - intros Hn. unfold load_template at 1. rewrite Hn. reflexivity.
  - intros Hl. rewrite Hl. reflexivity.
Qed.

Lemma main_run_template_first_witness :
  main_run (Some []) false None (Some code_only_template) "" "" <> NothingToClear /\
  main_run (Some []) false None (Some []) "" "" = Failed (Raised ConfigError).
Proof.
  split; [vm_compute; discriminate|].
  exact (proj1 (proj2 (main_run_template_first [] false None (Some []) "" "") [] eq_refl)
           eq_refl).
Defined.
